(** * esa-client: the request core of [EsaClient]

    A shallow embedding of [EsaClient.request], its verb helpers, the
    session methods and the leaf methods of the client, together with
    the parts of the JavaScript runtime they call: [||] and truthiness on
    strings, [String.prototype.replace], [String.prototype.toLowerCase],
    [toString], [parseInt], [encodeURI], [JSON.stringify],
    [URLSearchParams] and [fetch].

    A call is run against the list of answers the transport gives to its
    successive [fetch] calls, and yields how its promise settles together
    with the events it caused, in order: the [fetch] calls, the warnings,
    the [setTimeout] delays and the reads of a response body.

    Strings are sequences of UTF-8 bytes; a header value is a byte string
    whose bytes [fetch] hands over as characters.  Numbers are the
    integer-valued ones: [Z] stands for the Number of that value, which
    is exact for magnitudes below 2^53; [NaN] is kept apart where the
    code can produce it. *)

From Stdlib Require Import ZArith List String Ascii Bool Lia.
From Stdlib Require Import DecimalString DecimalPos DecimalZ.
Import ListNotations.

Set Warnings "-register-all".

Local Open Scope string_scope.
Local Open Scope Z_scope.

(** ** JavaScript values and the runtime operations the client uses *)

Module JS.

(** The values a parameter object or a decoded body is made of. *)
Inductive value : Type :=
| VUndefined
| VNull
| VBool (b : bool)
| VNum (n : Z)
| VStr (s : string)
| VArr (xs : list value)
| VObj (props : list (string * value)).

(** A Number as the retry path sees it: [parseInt] may give [NaN]. *)
Inductive number : Type :=
| NaN
| Int (n : Z).

Definition num_mul (a : number) (k : Z) : number :=
  match a with
  | NaN => NaN
  | Int n => Int (n * k)
  end.

(** Decimal rendering of an integer-valued Number. *)
Definition num_to_string (n : Z) : string :=
  NilZero.string_of_int (Z.to_int n).

Fixpoint join (sep : string) (parts : list string) : string :=
  match parts with
  | [] => ""
  | [p] => p
  | p :: rest => p ++ sep ++ join sep rest
  end.

(** The abstract operation ToString.  [Array.prototype.join] renders
    [undefined] and [null] elements as the empty string. *)
Fixpoint ToString (v : value) : string :=
  match v with
  | VUndefined => "undefined"
  | VNull => "null"
  | VBool true => "true"
  | VBool false => "false"
  | VNum n => num_to_string n
  | VStr s => s
  | VArr xs =>
      join ","
        ((fix elems (l : list value) : list string :=
            match l with
            | [] => []
            | VUndefined :: l' => "" :: elems l'
            | VNull :: l' => "" :: elems l'
            | x :: l' => ToString x :: elems l'
            end) xs)
  | VObj _ => "[object Object]"
  end.

(** [v.toString()]: reading a property of [undefined] or [null] throws a
    TypeError, which is [None] here. *)
Definition toString (v : value) : option string :=
  match v with
  | VUndefined | VNull => None
  | _ => Some (ToString v)
  end.

(** Truthiness of a [string | undefined] or [string | null] reference:
    only a non-empty string is truthy. *)
Definition truthy (s : option string) : bool :=
  match s with
  | Some (String _ _) => true
  | _ => false
  end.

(** [a || b] on such references. *)
Definition or_else (a b : option string) : option string :=
  if truthy a then a else b.

(** [s || d] where [d] is a string literal. *)
Definition or_default (s : option string) (d : string) : string :=
  match s with
  | Some (String c r) => String c r
  | _ => d
  end.

(** *** [String.prototype.toLowerCase]

    Bytes of the ASCII capitals are mapped; every other byte is kept.  No
    character outside ASCII lowercases to [g], [e] or [t], so the
    comparison with ["get"] is decided exactly. *)
Definition lower_ascii (c : ascii) : ascii :=
  let n := nat_of_ascii c in
  if (Nat.leb 65 n && Nat.leb n 90)%bool then ascii_of_nat (n + 32) else c.

Fixpoint toLowerCase (s : string) : string :=
  match s with
  | EmptyString => EmptyString
  | String c r => String (lower_ascii c) (toLowerCase r)
  end.

(** *** [String.prototype.replace] with a string pattern *)

(** What is left of [s] after the prefix [p], when [s] starts with it. *)
Fixpoint strip_prefix (p s : string) : option string :=
  match p, s with
  | EmptyString, _ => Some s
  | String a p', String b s' =>
      if Ascii.eqb a b then strip_prefix p' s' else None
  | String _ _, EmptyString => None
  end.

(** [find_sub needle s]: the text before and after the first occurrence
    of [needle] in [s]. *)
Fixpoint find_sub (needle s : string) : option (string * string) :=
  match strip_prefix needle s with
  | Some after => Some (EmptyString, after)
  | None =>
      match s with
      | EmptyString => None
      | String c r =>
          match find_sub needle r with
          | Some (before, after) => Some (String c before, after)
          | None => None
          end
      end
  end.

(** GetSubstitution for a string pattern (no captures): [$$], [$&],
    [$`] and [$'] are expanded, any other [$] is literal. *)
Fixpoint GetSubstitution (matched before after template : string) : string :=
  match template with
  | EmptyString => EmptyString
  | String "$" (String "$" r) => "$" ++ GetSubstitution matched before after r
  | String "$" (String "&" r) => matched ++ GetSubstitution matched before after r
  | String "$" (String "`" r) => before ++ GetSubstitution matched before after r
  | String "$" (String "'" r) => after ++ GetSubstitution matched before after r
  | String c r => String c (GetSubstitution matched before after r)
  end.

(** [s.replace(pattern, replacement)]: the first occurrence only. *)
Definition replace (pattern replacement s : string) : string :=
  match find_sub pattern s with
  | None => s
  | Some (before, after) =>
      before ++ GetSubstitution pattern before after replacement ++ after
  end.

(** *** [parseInt(s, 10)] *)

(** StrWhiteSpaceChar among the code points a header value can hold
    (U+0000 to U+00FF). *)
Definition is_space (c : ascii) : bool :=
  let n := nat_of_ascii c in
  (Nat.leb 9 n && Nat.leb n 13 || Nat.eqb n 32 || Nat.eqb n 160)%bool.

Definition digit_of (c : ascii) : option Z :=
  let n := nat_of_ascii c in
  if (Nat.leb 48 n && Nat.leb n 57)%bool then Some (Z.of_nat n - 48) else None.

Fixpoint skip_spaces (s : string) : string :=
  match s with
  | String c r => if is_space c then skip_spaces r else s
  | EmptyString => s
  end.

(** The longest prefix of decimal digits, read with accumulator [acc];
    [seen] records whether a digit was read. *)
Fixpoint read_digits (s : string) (seen : bool) (acc : Z) : option Z :=
  match s with
  | String c r =>
      match digit_of c with
      | Some d => read_digits r true (10 * acc + d)
      | None => if seen then Some acc else None
      end
  | EmptyString => if seen then Some acc else None
  end.

Definition parseInt (s : string) : number :=
  let t := skip_spaces s in
  let (sign, u) :=
    match t with
    | String "-" r => (-1, r)
    | String "+" r => (1, r)
    | _ => (1, t)
    end in
  match read_digits u false 0 with
  | Some n => Int (sign * n)
  | None => NaN
  end.

(** *** [JSON.stringify] *)

Definition dquote : ascii := ascii_of_nat 34.

(** A text between double quotes. *)
Definition quoted (s : string) : string := String dquote (s ++ String dquote "").

Definition hex_lower (n : nat) : ascii :=
  if Nat.ltb n 10 then ascii_of_nat (48 + n) else ascii_of_nat (87 + n).

(** QuoteJSONString, one code unit. *)
Definition json_escape (c : ascii) : string :=
  let n := nat_of_ascii c in
  if Nat.eqb n 34 then String "\" (String dquote "")
  else if Nat.eqb n 92 then "\\"
  else if Nat.eqb n 8 then "\b"
  else if Nat.eqb n 9 then "\t"
  else if Nat.eqb n 10 then "\n"
  else if Nat.eqb n 12 then "\f"
  else if Nat.eqb n 13 then "\r"
  else if Nat.ltb n 32 then
    "\u00" ++ String (hex_lower (Nat.div n 16)) (String (hex_lower (Nat.modulo n 16)) "")
  else String c "".

Fixpoint json_quote_body (s : string) : string :=
  match s with
  | EmptyString => EmptyString
  | String c r => json_escape c ++ json_quote_body r
  end.

Definition json_quote (s : string) : string :=
  String dquote (json_quote_body s ++ String dquote "").

(** SerializeJSONProperty: [None] is the [undefined] result, which drops
    a property and is written [null] inside an array. *)
Fixpoint stringify (v : value) : option string :=
  match v with
  | VUndefined => None
  | VNull => Some "null"
  | VBool true => Some "true"
  | VBool false => Some "false"
  | VNum n => Some (num_to_string n)
  | VStr s => Some (json_quote s)
  | VArr xs =>
      Some ("[" ++
        join ","
          ((fix elems (l : list value) : list string :=
              match l with
              | [] => []
              | x :: l' =>
                  match stringify x with
                  | Some t => t
                  | None => "null"
                  end :: elems l'
              end) xs) ++ "]")
  | VObj props =>
      Some ("{" ++
        join ","
          ((fix members (l : list (string * value)) : list string :=
              match l with
              | [] => []
              | (k, x) :: l' =>
                  match stringify x with
                  | Some t => (json_quote k ++ ":" ++ t) :: members l'
                  | None => members l'
                  end
              end) props) ++ "}")
  end.

End JS.


(** ** [URLSearchParams]: the application/x-www-form-urlencoded format *)

Module Url.

Definition hex_upper (n : nat) : ascii :=
  if Nat.ltb n 10 then ascii_of_nat (48 + n) else ascii_of_nat (55 + n).

(** Bytes the serializer writes as they are: ASCII letters and digits
    and the four marks [*], [-], [.] and [_]. *)
Definition unreserved (c : ascii) : bool :=
  let n := nat_of_ascii c in
  ((Nat.leb 48 n && Nat.leb n 57) || (Nat.leb 65 n && Nat.leb n 90)
   || (Nat.leb 97 n && Nat.leb n 122)
   || Nat.eqb n 42 || Nat.eqb n 45 || Nat.eqb n 46 || Nat.eqb n 95)%bool.

Definition encode_byte (c : ascii) : string :=
  let n := nat_of_ascii c in
  if Nat.eqb n 32 then "+"
  else if unreserved c then String c ""
  else String "%" (String (hex_upper (Nat.div n 16))
                     (String (hex_upper (Nat.modulo n 16)) "")).

Fixpoint encode (s : string) : string :=
  match s with
  | EmptyString => EmptyString
  | String c r => encode_byte c ++ encode r
  end.

(** One entry, written [name=value]. *)
Definition piece (e : string * string) : string :=
  encode (fst e) ++ "=" ++ encode (snd e).

(** [URLSearchParams.prototype.toString]. *)
Definition serialize (entries : list (string * string)) : string :=
  JS.join "&" (map piece entries).

(** The parser of the same format, as [new URLSearchParams(query)] reads
    a query string back. *)
Definition hex_value (c : ascii) : option nat :=
  let n := nat_of_ascii c in
  if (Nat.leb 48 n && Nat.leb n 57)%bool then Some (n - 48)%nat
  else if (Nat.leb 65 n && Nat.leb n 70)%bool then Some (n - 55)%nat
  else if (Nat.leb 97 n && Nat.leb n 102)%bool then Some (n - 87)%nat
  else None.

Fixpoint plus_to_space (s : string) : string :=
  match s with
  | EmptyString => EmptyString
  | String "+" r => String " " (plus_to_space r)
  | String c r => String c (plus_to_space r)
  end.

Fixpoint percent_decode (s : string) : string :=
  match s with
  | EmptyString => EmptyString
  | String c r =>
      match c, r with
      | "%"%char, String h (String l r') =>
          match hex_value h, hex_value l with
          | Some a, Some b =>
              String (ascii_of_nat (16 * a + b)) (percent_decode r')
          | _, _ => String c (percent_decode r)
          end
      | _, _ => String c (percent_decode r)
      end
  end.

Definition decode (s : string) : string := percent_decode (plus_to_space s).

(** [split_at sep s]: the text before the first [sep] and, when there is
    one, the text after it. *)
Fixpoint split_at (sep : ascii) (s : string) : string * option string :=
  match s with
  | EmptyString => (EmptyString, None)
  | String c r =>
      if Ascii.eqb c sep then (EmptyString, Some r)
      else let (a, b) := split_at sep r in (String c a, b)
  end.

(** The pieces of [s] between occurrences of [sep]. *)
Fixpoint split_on (sep : ascii) (s : string) : list string :=
  match s with
  | EmptyString => [EmptyString]
  | String c r =>
      if Ascii.eqb c sep then EmptyString :: split_on sep r
      else
        match split_on sep r with
        | p :: ps => String c p :: ps
        | [] => [String c EmptyString]
        end
  end.

Definition parse_pair (piece : string) : string * string :=
  match split_at "=" piece with
  | (name, Some v) => (decode name, decode v)
  | (name, None) => (decode name, EmptyString)
  end.

Definition parse (query : string) : list (string * string) :=
  map parse_pair
    (filter (fun p => negb (String.eqb p EmptyString)) (split_on "&" query)).

End Url.

(** ** The client *)

Import JS.

(** The transport boundary: what [fetch] is called with and what it
    answers. *)

Inductive form_value : Type :=
| FText (s : string)
| FFile (name content : string).

(** A [FormData]: its entries in the order they were appended. *)
Definition FormData : Type := list (string * form_value).

Inductive body : Type :=
| BodyText (s : string)
| BodyForm (fd : FormData).

Record fetch_init : Type := mkInit {
  url : string;
  method : string;
  headers : list (string * string);
  init_body : option body
}.

(** A [Response]: [json] and [text] are what the promises of
    [response.json()] and [response.text()] resolve with, [None] when
    they reject. *)
Record response : Type := mkResponse {
  status : Z;
  headers_get : string -> option string;
  json : option value;
  text : option string
}.

(** [response.ok]: the status is in the range 200 to 299. *)
Definition ok (r : response) : bool := (200 <=? status r) && (status r <=? 299).

(** One settled [fetch] promise. *)
Inductive fetch_result : Type :=
| Responds (r : response)
| Fails (reason : string).

(** What a call does to the outside, in order. *)
Inductive event : Type :=
| Fetch (init : fetch_init)
| ConsoleWarn (retryAfter : number)
| SetTimeout (ms : number)
| Json
| Text
| ConsoleError.

(** What a call can reject with.  An [EsaApiError] keeps its [status] and
    [data] fields; its message is derived from them and left out. *)
Inductive error : Type :=
| EsaApiError (status : Z) (data : value)
| TypeError
| FetchFailure (reason : string).

(** How the promise of a call settles; [Pending] when the transport has
    no further answer. *)
Inductive outcome : Type :=
| Resolved (data : value)
| Rejected (e : error)
| Pending.

(** The parameter of [request]: a plain object, as its own enumerable
    properties in enumeration order, or a [FormData]. *)
Inductive payload : Type :=
| PObject (props : list (string * value))
| PForm (fd : FormData).

(** The own enumerable properties, which [Object.keys] and [for ... in]
    visit; a [FormData] has none. *)
Definition own_props (params : payload) : list (string * value) :=
  match params with
  | PObject props => props
  | PForm _ => []
  end.

(** [Object.keys(params).length]. *)
Definition keys_length (params : payload) : nat := List.length (own_props params).

Record EsaClient : Type := mkClient {
  token : string;
  teamName : option string
}.

Definition baseUrl : string := "https://api.esa.io/v1".

(** [new EsaClient({ token, teamName })]. *)
Definition new_client (tok : string) (team : option string) : EsaClient :=
  {| token := tok; teamName := or_else team None |}.



(** The [for (const key in params)] loop of the GET branch, from the
    parameters still to visit and the entries appended so far; [None]
    when a [toString()] call throws. *)
Fixpoint append_params (props : list (string * value))
    (queryParams : list (string * string)) : option (list (string * string)) :=
  match props with
  | [] => Some queryParams
  | (key, VUndefined) :: rest => append_params rest queryParams
  | (key, v) :: rest =>
      match toString v with
      | Some s => append_params rest (queryParams ++ [(key, s)])
      | None => None
      end
  end.

Definition default_headers (c : EsaClient) : list (string * string) :=
  [("Authorization", "Bearer " ++ token c); ("Content-Type", "application/json")].

(** [delete headers[name]]. *)
Definition delete_header (name : string) (hs : list (string * string))
  : list (string * string) :=
  filter (fun h => negb (String.eqb (fst h) name)) hs.

(** The effective team and the path after substitution. *)
Definition effective_team (c : EsaClient) (team : option string) : option string :=
  or_else team (teamName c).

Definition processedPath (c : EsaClient) (path : string) (team : option string)
  : string :=
  match effective_team c team with
  | Some (String a t) => replace ":team_name" (String a t) path
  | _ => path
  end.

(** The part of [request] before the [try] block: the arguments of
    [fetch], or [None] when building the query string throws. *)
Definition prepare (c : EsaClient) (meth path : string) (params : payload)
    (team : option string) : option fetch_init :=
  let url0 := baseUrl ++ processedPath c path team in
  let headers0 := default_headers c in
  if (String.eqb (toLowerCase meth) "get" && Nat.ltb 0 (keys_length params))%bool
  then
    match append_params (own_props params) [] with
    | Some queryParams =>
        Some (mkInit (url0 ++ "?" ++ Url.serialize queryParams) meth headers0 None)
    | None => None
    end
  else
    match params with
    | PForm fd =>
        Some (mkInit url0 meth (delete_header "Content-Type" headers0)
                (Some (BodyForm fd)))
    | PObject props =>
        if Nat.ltb 0 (keys_length params) then
          Some (mkInit url0 meth headers0
                  (option_map BodyText (stringify (VObj props))))
        else Some (mkInit url0 meth headers0 None)
    end.

Definition fallback_message : string := "Failed to parse error response".

(** The body of an error response: decoded, else its text under
    [message], else the fallback. *)
Definition read_error_data (r : response) : value * list event :=
  match json r with
  | Some data => (data, [Json])
  | None =>
      match text r with
      | Some t =>
          (VObj [("message", VStr (or_default (Some t) fallback_message))],
           [Json; Text])
      | None => (VObj [("message", VStr fallback_message)], [Json; Text])
      end
  end.

(** The result of a successful response. *)
Definition read_data (r : response) : value * list event :=
  if status r =? 204 then (VNull, [])
  else
    match json r with
    | Some data => (data, [Json])
    | None => (VObj [], [Json])
    end.

(** [retryAfter] of a 429 response. *)
Definition retryAfter (r : response) : number :=
  parseInt (or_default (headers_get r "retry-after") "60").

(** [request(method, path, params, teamName)] against the answers [net]
    the transport gives to the successive [fetch] calls: how the promise
    settles and what was done. *)
Fixpoint request (c : EsaClient) (meth path : string) (params : payload)
    (team : option string) (net : list fetch_result) : outcome * list event :=
  match prepare c meth path params team with
  | None => (Rejected TypeError, [])
  | Some init =>
      match net with
      | [] => (Pending, [Fetch init])
      | Fails reason :: _ =>
          (Rejected (FetchFailure reason), [Fetch init; ConsoleError])
      | Responds r :: net' =>
          if status r =? 429 then
            let (o, evs) := request c meth path params team net' in
            (o, Fetch init :: ConsoleWarn (retryAfter r)
                  :: SetTimeout (num_mul (retryAfter r) 1000) :: evs)
          else if negb (ok r) then
            let (data, evs) := read_error_data r in
            (Rejected (EsaApiError (status r) data), Fetch init :: evs)
          else
            let (data, evs) := read_data r in
            (Resolved data, Fetch init :: evs)
      end
  end.

(** The verb helpers; [params || {}]. *)
Definition params_or_empty (params : option (list (string * value))) : payload :=
  match params with
  | Some props => PObject props
  | None => PObject []
  end.

Definition get c path params team net :=
  request c "get" path (params_or_empty params) team net.
Definition post c path params team net :=
  request c "post" path (params_or_empty params) team net.
Definition patch c path params team net :=
  request c "patch" path (params_or_empty params) team net.
Definition put c path params team net :=
  request c "put" path (params_or_empty params) team net.
Definition delete c path params team net :=
  request c "delete" path (params_or_empty params) team net.

(** Leaf methods. *)
Definition getTeam c (team : option string) net :=
  get c "/teams/:team_name" (Some []) team net.

Definition getPosts c (params : option (list (string * value))) team net :=
  get c "/teams/:team_name/posts" params team net.

Definition getPost c (postNumber : Z) (include : option string) team net :=
  let params :=
    match include with
    | Some (String a i) => [("include", VStr (String a i))]
    | _ => []
    end in
  get c ("/teams/:team_name/posts/" ++ num_to_string postNumber) (Some params)
    team net.

Definition createPost c (params : list (string * value)) team net :=
  post c "/teams/:team_name/posts" (Some [("post", VObj params)]) team net.

Definition updatePost c (postNumber : Z) (params : list (string * value)) team net :=
  patch c ("/teams/:team_name/posts/" ++ num_to_string postNumber)
    (Some [("post", VObj params)]) team net.

(** [CreateEmojiParams]. *)
Record CreateEmojiParams : Type := mkEmoji {
  code : string;
  origin_code : option string;
  image : option form_value
}.

(** A method that is not [async] either throws before it returns or
    returns its promise. *)
Inductive call : Type :=
| Threw (message : string)
| Returned (settled : outcome * list event).

Definition emoji_form (params : CreateEmojiParams) : FormData :=
  ([("emoji[code]", FText (code params))]
   ++ (if truthy (origin_code params)
       then [("emoji[origin_code]", FText (or_default (origin_code params) ""))]
       else [])
   ++ match image params with
      | Some (FText EmptyString) => []
      | Some img => [("emoji[image]", img)]
      | None => []
      end)%list.

Definition createEmoji c (params : CreateEmojiParams) (team : option string) net
  : call :=
  let team' := or_else team (teamName c) in
  if negb (truthy team') then Threw "Team name is required for creating emoji"
  else Returned (request c "post" "/teams/:team_name/emojis"
                   (PForm (emoji_form params)) team' net).

(** ** The other leaf methods *)

(** [encodeURI]: the bytes of the reserved and unescaped sets and [#]
    are kept, every other byte of the UTF-8 text is written [%XX]. *)
Definition uri_kept (c : ascii) : bool :=
  let n := nat_of_ascii c in
  ((Nat.leb 48 n && Nat.leb n 57) || (Nat.leb 65 n && Nat.leb n 90)
   || (Nat.leb 97 n && Nat.leb n 122)
   || existsb (Ascii.eqb c) (list_ascii_of_string ";/?:@&=+$,#-_.!~*'()"))%bool.

Definition encodeURI_byte (c : ascii) : string :=
  if uri_kept c then String c ""
  else
    let n := nat_of_ascii c in
    String "%" (String (Url.hex_upper (Nat.div n 16))
                  (String (Url.hex_upper (Nat.modulo n 16)) "")).

Fixpoint encodeURI (s : string) : string :=
  match s with
  | EmptyString => EmptyString
  | String c r => encodeURI_byte c ++ encodeURI r
  end.

(** [flag ? { key: value } : {}] for an optional string argument. *)
Definition string_flag (key : string) (flag : option string)
  : list (string * value) :=
  match flag with
  | Some (String a r) => [(key, VStr (String a r))]
  | _ => []
  end.

(** [flag ? { key: 'text' } : {}] for an optional boolean argument. *)
Definition bool_flag (key text : string) (flag : option bool)
  : list (string * value) :=
  match flag with
  | Some true => [(key, VStr text)]
  | _ => []
  end.

(** Teams and members. *)
Definition getTeams c (role : option string) net :=
  get c "/teams" (Some (string_flag "role" role)) None net.

Definition getTeamStats c (team : option string) net :=
  get c "/teams/:team_name/stats" (Some []) team net.


Definition getMember c (screenNameOrEmail : string) team net :=
  get c ("/teams/:team_name/members/" ++ screenNameOrEmail) (Some []) team net.

Definition deleteMember c (screenNameOrEmail : string) team net :=
  delete c ("/teams/:team_name/members/" ++ screenNameOrEmail) (Some []) team net.

(** Posts. *)
Definition deletePost c (postNumber : Z) team net :=
  delete c ("/teams/:team_name/posts/" ++ num_to_string postNumber) (Some [])
    team net.

Definition searchPosts c (searchParams : string) net :=
  let params := encodeURI searchParams in
  get c "/teams/docs/posts" (Some [("q", VStr params)]) None net.


Definition getComment c (commentId : Z) (include : option string) team net :=
  get c ("/teams/:team_name/comments/" ++ num_to_string commentId)
    (Some (string_flag "include" include)) team net.

Definition createComment c (postNumber : Z) (params : list (string * value))
    team net :=
  post c ("/teams/:team_name/posts/" ++ num_to_string postNumber ++ "/comments")
    (Some [("comment", VObj params)]) team net.

Definition updateComment c (commentId : Z) (params : list (string * value))
    team net :=
  patch c ("/teams/:team_name/comments/" ++ num_to_string commentId)
    (Some [("comment", VObj params)]) team net.

Definition deleteComment c (commentId : Z) team net :=
  delete c ("/teams/:team_name/comments/" ++ num_to_string commentId) (Some [])
    team net.



Definition starPost c (postNumber : Z) (params : option (list (string * value)))
    team net :=
  post c ("/teams/:team_name/posts/" ++ num_to_string postNumber ++ "/star")
    params team net.

Definition unstarPost c (postNumber : Z) team net :=
  delete c ("/teams/:team_name/posts/" ++ num_to_string postNumber ++ "/star")
    (Some []) team net.


Definition starComment c (commentId : Z) (params : option (list (string * value)))
    team net :=
  post c ("/teams/:team_name/comments/" ++ num_to_string commentId ++ "/star")
    params team net.

Definition unstarComment c (commentId : Z) team net :=
  delete c ("/teams/:team_name/comments/" ++ num_to_string commentId ++ "/star")
    (Some []) team net.


Definition watchPost c (postNumber : Z) team net :=
  post c ("/teams/:team_name/posts/" ++ num_to_string postNumber ++ "/watch")
    (Some []) team net.

Definition unwatchPost c (postNumber : Z) team net :=
  delete c ("/teams/:team_name/posts/" ++ num_to_string postNumber ++ "/watch")
    (Some []) team net.

(** Categories, tags and invitations. *)
Definition batchMoveCategory c (params : list (string * value)) team net :=
  post c "/teams/:team_name/categories/batch_move" (Some params) team net.

Definition getTags c (team : option string) net :=
  get c "/teams/:team_name/tags" (Some []) team net.

Definition getInvitationUrl c (team : option string) net :=
  get c "/teams/:team_name/invitation" (Some []) team net.

Definition regenerateInvitationUrl c (team : option string) net :=
  post c "/teams/:team_name/invitation_regenerator" (Some []) team net.

Definition inviteMembers c (params : list (string * value)) team net :=
  post c "/teams/:team_name/invitations" (Some [("member", VObj params)]) team net.


Definition deleteInvitation c (code : string) team net :=
  delete c ("/teams/:team_name/invitations/" ++ code) (Some []) team net.

(** Emojis and the user. *)
Definition getEmojis c (includeAll : option bool) team net :=
  get c "/teams/:team_name/emojis" (Some (bool_flag "include" "all" includeAll))
    team net.

Definition deleteEmoji c (code : string) team net :=
  delete c ("/teams/:team_name/emojis/" ++ code) (Some []) team net.

Definition getAuthenticatedUser c (includeTeams : option bool) net :=
  get c "/user" (Some (bool_flag "include" "teams" includeTeams)) None net.

(** ** Reading the events of a call *)

(** The [fetch] calls, in order. *)
Fixpoint exchanges (evs : list event) : list fetch_init :=
  match evs with
  | [] => []
  | Fetch init :: rest => init :: exchanges rest
  | _ :: rest => exchanges rest
  end.

(** The delays handed to [setTimeout], in order. *)
Fixpoint timeouts (evs : list event) : list number :=
  match evs with
  | [] => []
  | SetTimeout ms :: rest => ms :: timeouts rest
  | _ :: rest => timeouts rest
  end.

(** The number of [response.json()] calls. *)
Fixpoint decodes (evs : list event) : nat :=
  match evs with
  | [] => 0%nat
  | Json :: rest => S (decodes rest)
  | _ :: rest => decodes rest
  end.

Definition exchanges_of_call (k : call) : list fetch_init :=
  match k with
  | Threw _ => []
  | Returned (_, evs) => exchanges evs
  end.

(** What a 429 response adds to the events before the retry. *)
Definition retry_events (init : fetch_init) (r : response) : list event :=
  [Fetch init; ConsoleWarn (retryAfter r); SetTimeout (num_mul (retryAfter r) 1000)].

Definition is_undefined (v : value) : bool :=
  match v with VUndefined => true | _ => false end.

Definition is_null (v : value) : bool :=
  match v with VNull => true | _ => false end.

(** The entries of a parameter object that are not [undefined], each
    with its value coerced to a string. *)
Definition coerced (props : list (string * value)) : list (string * string) :=
  map (fun kv => (fst kv, ToString (snd kv)))
    (filter (fun kv => negb (is_undefined (snd kv))) props).

Fixpoint has_char (c : ascii) (s : string) : bool :=
  match s with
  | EmptyString => false
  | String a r => (Ascii.eqb a c || has_char c r)%bool
  end.

(** The members [JSON.stringify] writes for the properties of an object,
    in order: one for each property whose value is serialized. *)
Fixpoint members (props : list (string * value)) : list string :=
  match props with
  | [] => []
  | (k, x) :: rest =>
      match stringify x with
      | Some t => (json_quote k ++ ":" ++ t) :: members rest
      | None => members rest
      end
  end.

(** The properties whose value is not [undefined]. *)
Definition defined_props (props : list (string * value)) : list (string * value) :=
  filter (fun kv => negb (is_undefined (snd kv))) props.


(** The URL of the first exchange of a call. *)
Definition first_url (run : outcome * list event) : option string :=
  option_map url (hd_error (exchanges (snd run))).

(** The names of the fields of a form, in order. *)
Definition field_names (fd : FormData) : list string := map fst fd.

(** A settled [fetch] that is a 429 response. *)
Definition rate_limited (f : fetch_result) : bool :=
  match f with
  | Responds r => status r =? 429
  | Fails _ => false
  end.

(** ** The specification's reading, where it is compared with the code *)

(** The error body as the specification words it: decoded, else the raw
    text under [message], else the fallback when the text cannot be
    read. *)
Definition spec_error_data (r : response) : value :=
  match json r with
  | Some data => data
  | None =>
      match text r with
      | Some t => VObj [("message", VStr t)]
      | None => VObj [("message", VStr fallback_message)]
      end
  end.

(** The effective team as the specification words it: the override if
    provided, else the session default, else none. *)
Definition spec_effective_team (c : EsaClient) (team : option string)
  : option string :=
  match team with
  | Some t => Some t
  | None => teamName c
  end.

(** The path as the specification words it: the placeholder replaced by
    the effective team, left as it is when no team resolves. *)
Definition spec_processedPath (c : EsaClient) (path : string)
    (team : option string) : string :=
  match spec_effective_team c team, find_sub ":team_name" path with
  | Some t, Some (before, after) => before ++ t ++ after
  | _, _ => path
  end.

(** ** Properties *)

(** *** The query string format *)

Section UrlFormat.

Import Url.

Ltac each_byte c :=
  destruct c as [[] [] [] [] [] [] [] []].

Lemma plus_to_space_app (a b : string) :
  plus_to_space (a ++ b) = plus_to_space a ++ plus_to_space b.
Proof.
  induction a as [|c a IH]; [reflexivity|].
  cbn [append plus_to_space]. rewrite IH.
  each_byte c; reflexivity.
Qed.

Lemma decode_encode_byte (c : ascii) (r : string) :
  percent_decode (plus_to_space (encode_byte c) ++ r) = String c (percent_decode r).
Proof.
  each_byte c; reflexivity.
Qed.

Lemma decode_encode (s : string) : decode (encode s) = s.
Proof.
  unfold decode. induction s as [|c s IH]; [reflexivity|].
  cbn [encode]. rewrite plus_to_space_app, decode_encode_byte, IH. reflexivity.
Qed.

Lemma has_char_app (c : ascii) (a b : string) :
  has_char c (a ++ b) = (has_char c a || has_char c b)%bool.
Proof.
  induction a as [|x a IH]; [reflexivity|].
  cbn [append has_char]. rewrite IH. apply orb_assoc.
Qed.

Lemma encode_byte_no_separator (c : ascii) :
  has_char "&" (encode_byte c) = false /\ has_char "=" (encode_byte c) = false.
Proof.
  each_byte c; split; reflexivity.
Qed.

Lemma encode_no_separator (s : string) :
  has_char "&" (encode s) = false /\ has_char "=" (encode s) = false.
Proof.
  induction s as [|c s [IH1 IH2]]; [split; reflexivity|].
  cbn [encode]. rewrite !has_char_app, IH1, IH2.
  destruct (encode_byte_no_separator c) as [-> ->]. split; reflexivity.
Qed.

Lemma split_at_first (sep : ascii) (a b : string) :
  has_char sep a = false ->
  split_at sep (a ++ String sep b) = (a, Some b).
Proof.
  induction a as [|x a IH]; cbn [append split_at has_char]; intros H.
  - rewrite Ascii.eqb_refl. reflexivity.
  - apply orb_false_iff in H. destruct H as [Hx Ha].
    rewrite Hx, (IH Ha). reflexivity.
Qed.

Lemma split_on_last (sep : ascii) (a : string) :
  has_char sep a = false -> split_on sep a = [a].
Proof.
  induction a as [|x a IH]; cbn [split_on has_char]; intros H; [reflexivity|].
  apply orb_false_iff in H. destruct H as [Hx Ha].
  rewrite Hx, (IH Ha). reflexivity.
Qed.

Lemma split_on_first (sep : ascii) (a b : string) :
  has_char sep a = false ->
  split_on sep (a ++ String sep b) = a :: split_on sep b.
Proof.
  induction a as [|x a IH]; cbn [append split_on has_char]; intros H.
  - rewrite Ascii.eqb_refl. reflexivity.
  - apply orb_false_iff in H. destruct H as [Hx Ha].
    rewrite Hx, (IH Ha). reflexivity.
Qed.

Lemma piece_no_ampersand (e : string * string) : has_char "&" (piece e) = false.
Proof.
  unfold piece. rewrite has_char_app. cbn [append has_char].
  destruct (encode_no_separator (fst e)) as [-> _].
  destruct (encode_no_separator (snd e)) as [-> _]. reflexivity.
Qed.

Lemma piece_not_empty (e : string * string) : String.eqb (piece e) EmptyString = false.
Proof.
  unfold piece. destruct (encode (fst e)); reflexivity.
Qed.

Lemma parse_pair_piece (e : string * string) : parse_pair (piece e) = e.
Proof.
  unfold parse_pair, piece. cbn [append].
  rewrite split_at_first by apply encode_no_separator.
  rewrite !decode_encode. destruct e; reflexivity.
Qed.

Lemma split_on_serialize (e : string * string) (es : list (string * string)) :
  split_on "&" (JS.join "&" (map piece (e :: es))) = map piece (e :: es).
Proof.
  revert e. induction es as [|e' es IH]; intros e.
  - cbn [map JS.join]. apply split_on_last, piece_no_ampersand.
  - change (JS.join "&" (map piece (e :: e' :: es)))
      with (piece e ++ String "&" (JS.join "&" (map piece (e' :: es)))).
    rewrite split_on_first by apply piece_no_ampersand.
    rewrite IH. reflexivity.
Qed.

(** Reading back a serialized list of entries gives the entries. *)
Lemma parse_serialize (es : list (string * string)) : parse (serialize es) = es.
Proof.
  unfold parse, serialize.
  destruct es as [|e es]; [reflexivity|].
  rewrite split_on_serialize.
  assert (Hf : forall l, filter (fun p => negb (String.eqb p EmptyString)) (map piece l)
                         = map piece l).
  { induction l as [|x l IHl]; [reflexivity|].
    cbn [map filter]. rewrite piece_not_empty. cbn [negb]. now rewrite IHl. }
  rewrite Hf, map_map.
  rewrite <- (map_id (e :: es)) at 2.
  apply map_ext. intros a. apply parse_pair_piece.
Qed.

End UrlFormat.

(** *** The runtime operations *)

Lemma GetSubstitution_plain (matched before after template : string) :
  has_char "$" template = false ->
  GetSubstitution matched before after template = template.
Proof.
  induction template as [|c t IH]; [reflexivity|].
  cbn [has_char]. intros H. apply orb_false_iff in H. destruct H as [Hc Ht].
  specialize (IH Ht).
  destruct c as [[] [] [] [] [] [] [] []]; try discriminate Hc;
    cbn [GetSubstitution]; rewrite IH; reflexivity.
Qed.

Lemma strip_prefix_sound (p s rest : string) :
  strip_prefix p s = Some rest -> s = p ++ rest.
Proof.
  revert s. induction p as [|a p IH]; intros s H.
  - cbn in H. injection H as <-. reflexivity.
  - destruct s as [|b s]; [discriminate|]. cbn [strip_prefix] in H.
    destruct (Ascii.eqb_spec a b) as [->|]; [|discriminate].
    cbn [append]. f_equal. now apply IH.
Qed.

Lemma find_sub_sound (needle s before after : string) :
  find_sub needle s = Some (before, after) -> s = before ++ needle ++ after.
Proof.
  revert before. induction s as [|c s IH]; intros before H.
  - cbn [find_sub] in H. destruct (strip_prefix needle EmptyString) eqn:E.
    + injection H as <- <-. now apply (strip_prefix_sound needle).
    + discriminate.
  - cbn [find_sub] in H. destruct (strip_prefix needle (String c s)) eqn:E.
    + injection H as <- <-. now apply (strip_prefix_sound needle).
    + destruct (find_sub needle s) as [[b a]|]; [|discriminate].
      injection H as <- <-. cbn [append]. f_equal. now apply IH.
Qed.

(** Replacing by a text without [$] puts that text in the place of the
    first occurrence. *)
Lemma replace_plain (pattern team path before after : string) :
  has_char "$" team = false ->
  find_sub pattern path = Some (before, after) ->
  replace pattern team path = before ++ team ++ after.
Proof.
  intros Hd Hf. unfold replace. rewrite Hf, GetSubstitution_plain by exact Hd.
  reflexivity.
Qed.

Lemma replace_absent (pattern team path : string) :
  find_sub pattern path = None -> replace pattern team path = path.
Proof.
  intros Hf. unfold replace. now rewrite Hf.
Qed.

(** *** The GET loop *)

Lemma append_params_spec (props : list (string * value))
    (acc : list (string * string)) :
  append_params props acc =
    if existsb (fun kv => is_null (snd kv)) props then None
    else Some (acc ++ coerced props)%list.
Proof.
  revert acc. induction props as [|[k v] props IH]; intros acc.
  - cbn. now rewrite app_nil_r.
  - destruct v; cbn [append_params toString existsb snd is_null orb];
      rewrite ?IH; try reflexivity;
      unfold coerced; cbn [filter map snd fst is_undefined negb];
      destruct (existsb _ props); try reflexivity;
      now rewrite <- app_assoc.
Qed.

(** *** The retry loop *)

Lemma request_eq c meth path params team net :
  request c meth path params team net =
    match prepare c meth path params team with
    | None => (Rejected TypeError, [])
    | Some init =>
        match net with
        | [] => (Pending, [Fetch init])
        | Fails reason :: _ =>
            (Rejected (FetchFailure reason), [Fetch init; ConsoleError])
        | Responds r :: net' =>
            if status r =? 429 then
              (fst (request c meth path params team net'),
               retry_events init r ++ snd (request c meth path params team net'))%list
            else if negb (ok r) then
              (Rejected (EsaApiError (status r) (fst (read_error_data r))),
               Fetch init :: snd (read_error_data r))
            else (Resolved (fst (read_data r)), Fetch init :: snd (read_data r))
        end
    end.
Proof.
  destruct net as [|[r|reason] net']; cbn [request]; try reflexivity.
  destruct (prepare c meth path params team); [|reflexivity].
  destruct (status r =? 429).
  - destruct (request c meth path params team net'); reflexivity.
  - destruct (negb (ok r)).
    + destruct (read_error_data r); reflexivity.
    + destruct (read_data r); reflexivity.
Qed.

(** Every 429 response costs one exchange, one warning and one wait, and
    the call goes on with the answers that follow. *)
Lemma request_retry_prefix c meth path params team init limited net :
  prepare c meth path params team = Some init ->
  Forall (fun r => status r = 429) limited ->
  request c meth path params team (map Responds limited ++ net)%list =
    (fst (request c meth path params team net),
     flat_map (retry_events init) limited
       ++ snd (request c meth path params team net))%list.
Proof.
  intros Hp Hl. induction Hl as [|r limited Hr _ IH].
  - cbn [map flat_map app]. now destruct (request c meth path params team net).
  - cbn [map app flat_map]. rewrite request_eq, Hp, Hr, Z.eqb_refl, IH.
    cbn [fst snd]. now rewrite <- app_assoc.
Qed.

Lemma exchanges_app (a b : list event) :
  exchanges (a ++ b) = (exchanges a ++ exchanges b)%list.
Proof.
  induction a as [|[] a IH]; cbn [app exchanges]; now rewrite ?IH.
Qed.

Lemma timeouts_app (a b : list event) :
  timeouts (a ++ b) = (timeouts a ++ timeouts b)%list.
Proof.
  induction a as [|[] a IH]; cbn [app timeouts]; now rewrite ?IH.
Qed.

Lemma decodes_app (a b : list event) :
  decodes (a ++ b) = (decodes a + decodes b)%nat.
Proof.
  induction a as [|[] a IH]; cbn [app decodes]; now rewrite ?IH.
Qed.

Lemma exchanges_retries init limited :
  exchanges (flat_map (retry_events init) limited) = repeat init (List.length limited).
Proof.
  induction limited as [|r l IH]; [reflexivity|].
  cbn [flat_map]. rewrite exchanges_app, IH. reflexivity.
Qed.

Lemma timeouts_retries init limited :
  timeouts (flat_map (retry_events init) limited)
  = map (fun r => num_mul (retryAfter r) 1000) limited.
Proof.
  induction limited as [|r l IH]; [reflexivity|].
  cbn [flat_map]. rewrite timeouts_app, IH. reflexivity.
Qed.

Lemma decodes_retries init limited :
  decodes (flat_map (retry_events init) limited) = 0%nat.
Proof.
  induction limited as [|r l IH]; [reflexivity|].
  cbn [flat_map]. rewrite decodes_app, IH. reflexivity.
Qed.

Lemma ok_not_429 (r : response) : ok r = true -> (status r =? 429) = false.
Proof.
  unfold ok. intros H. apply andb_true_iff in H. destruct H as [_ H].
  apply Z.leb_le in H. apply Z.eqb_neq. lia.
Qed.

Lemma no_null_existsb (props : list (string * value)) :
  (forall k, ~ In (k, VNull) props) ->
  existsb (fun kv => is_null (snd kv)) props = false.
Proof.
  intros H. destruct (existsb _ props) eqn:E; [|reflexivity].
  apply existsb_exists in E. destruct E as [[k v] [Hin Hn]].
  destruct v; try discriminate Hn. now apply H in Hin.
Qed.

Lemma null_existsb (props : list (string * value)) (k : string) :
  In (k, VNull) props -> existsb (fun kv => is_null (snd kv)) props = true.
Proof.
  intros H. apply existsb_exists. now exists (k, VNull).
Qed.

Lemma in_coerced (props : list (string * value)) (k s : string) :
  In (k, s) (coerced props) <->
  exists v, In (k, v) props /\ v <> VUndefined /\ ToString v = s.
Proof.
  unfold coerced. rewrite in_map_iff. split.
  - intros [[k' v] [E Hin]]. apply filter_In in Hin. destruct Hin as [Hin Hu].
    cbn [fst snd] in *. injection E as <- <-. exists v. repeat split; trivial.
    intros ->. discriminate Hu.
  - intros [v [Hin [Hu <-]]]. exists (k, v). split; [reflexivity|].
    apply filter_In. split; [exact Hin|]. now destruct v.
Qed.

Lemma read_error_data_events (r : response) :
  exchanges (snd (read_error_data r)) = [] /\ timeouts (snd (read_error_data r)) = [].
Proof.
  unfold read_error_data. destruct (json r); [|destruct (text r)]; split; reflexivity.
Qed.

Lemma read_data_events (r : response) :
  exchanges (snd (read_data r)) = [] /\ timeouts (snd (read_data r)) = [].
Proof.
  unfold read_data. destruct (status r =? 204); [|destruct (json r)];
    split; reflexivity.
Qed.

(** An answer that is not a 429 response settles the call: what follows
    it in the transport is never asked for. *)
Lemma request_settles c meth path params team init final rest :
  prepare c meth path params team = Some init ->
  rate_limited final = false ->
  request c meth path params team (final :: rest)
  = request c meth path params team [final]
  /\ exchanges (snd (request c meth path params team [final])) = [init]
  /\ timeouts (snd (request c meth path params team [final])) = [].
Proof.
  intros Hp Hf.
  rewrite (request_eq _ _ _ _ _ (final :: rest)), (request_eq _ _ _ _ _ [final]), Hp.
  destruct final as [r|reason]; [|repeat split; reflexivity].
  cbn [rate_limited] in Hf. rewrite Hf.
  destruct (negb (ok r)); cbn [snd exchanges timeouts].
  - destruct (read_error_data_events r) as [-> ->]. repeat split; reflexivity.
  - destruct (read_data_events r) as [-> ->]. repeat split; reflexivity.
Qed.

(** The first exchange of a call carries the arguments [prepare] built. *)
Lemma request_first_exchange c meth path params team init net :
  prepare c meth path params team = Some init ->
  hd_error (exchanges (snd (request c meth path params team net))) = Some init.
Proof.
  intros Hp. rewrite request_eq, Hp.
  destruct net as [|[r|reason] net]; try reflexivity.
  destruct (status r =? 429); [reflexivity|].
  destruct (negb (ok r)); reflexivity.
Qed.

(** *** The claims *)

(** C1.  A 429 response is never turned into the error of the call.  Each
    429 response is followed by one wait and one more exchange with the
    same arguments, so after [n] of them and one other answer there are
    [n + 1] identical exchanges and the call settles as that answer
    alone would settle it.  A 429 response followed by a 200 response
    resolves with the decoded body of the second after exactly two
    exchanges. *)
Theorem request_absorbs_rate_limit c meth path params team :
  (forall net data,
      fst (request c meth path params team net) <> Rejected (EsaApiError 429 data))
  /\ (forall init limited final rest,
        prepare c meth path params team = Some init ->
        Forall (fun r => status r = 429) limited ->
        rate_limited final = false ->
        let run :=
          request c meth path params team (map Responds limited ++ final :: rest) in
        exchanges (snd run) = repeat init (S (List.length limited))
        /\ timeouts (snd run) = map (fun r => num_mul (retryAfter r) 1000) limited
        /\ fst run = fst (request c meth path params team [final]))
  /\ (forall init r1 r2 data rest,
        prepare c meth path params team = Some init ->
        status r1 = 429 -> status r2 = 200 -> json r2 = Some data ->
        let run :=
          request c meth path params team (Responds r1 :: Responds r2 :: rest) in
        fst run = Resolved data /\ exchanges (snd run) = [init; init]).
Proof.
  split; [|split].
  - intros net. induction net as [|[r|reason] net IH]; intros data;
      rewrite request_eq; destruct (prepare c meth path params team);
      try discriminate.
    destruct (status r =? 429) eqn:E.
    + cbn [fst]. apply IH.
    + apply Z.eqb_neq in E. destruct (negb (ok r)); [|discriminate].
      cbn [fst]. intros H. injection H as H _. contradiction.
  - intros init limited final rest Hp Hl Hf run. subst run.
    rewrite (request_retry_prefix _ _ _ _ _ _ _ _ Hp Hl). cbn [fst snd].
    rewrite exchanges_app, timeouts_app, exchanges_retries, timeouts_retries.
    destruct (request_settles _ _ _ _ _ _ _ rest Hp Hf) as [-> [-> ->]].
    rewrite app_nil_r. repeat split.
    change (S (List.length limited)) with (1 + List.length limited)%nat.
    rewrite Nat.add_comm, repeat_app. reflexivity.
  - intros init r1 r2 data rest Hp H1 H2 Hj run. subst run.
    rewrite request_eq, Hp, H1. cbn [Z.eqb Pos.eqb].
    rewrite request_eq, Hp. unfold ok, read_data. rewrite H2, Hj.
    split; reflexivity.
Qed.

(** C1, at the exchange of the test suite: [getPost(1)] answered by a
    429 response with [retry-after: 1] and then by a 200 response. *)
Lemma request_absorbs_rate_limit_witness :
  let c := new_client "test-token" (Some "test-team") in
  let r1 := mkResponse 429
              (fun h => if String.eqb h "retry-after" then Some "1" else None)
              (Some (VObj [("error", VStr "too_many_requests")])) None in
  let r2 := mkResponse 200 (fun _ => None) (Some (VObj [("success", VBool true)]))
              None in
  let run := getPost c 1 None None [Responds r1; Responds r2] in
  fst run = Resolved (VObj [("success", VBool true)])
  /\ List.length (exchanges (snd run)) = 2%nat
  /\ timeouts (snd run) = [Int 1000].
Proof.
  intros c r1 r2 run.
  destruct (request_absorbs_rate_limit c "get" "/teams/:team_name/posts/1"
              (PObject []) None) as [_ [Hn H2]].
  specialize (Hn (mkInit "https://api.esa.io/v1/teams/test-team/posts/1" "get"
                    (default_headers c) None) [r1] (Responds r2) []
                 eq_refl (Forall_cons r1 eq_refl (Forall_nil _)) eq_refl).
  cbv zeta in Hn. destruct Hn as [He [Ht Hf]].
  split; [|split].
  - exact Hf.
  - unfold run, getPost, get. cbn [params_or_empty]. 
    change ("/teams/:team_name/posts/" ++ num_to_string 1) with "/teams/:team_name/posts/1".
    change [Responds r1; Responds r2] with (map Responds [r1] ++ [Responds r2])%list.
    rewrite He. reflexivity.
  - exact Ht.
Defined.

(** C2, where the code departs from it.  When the [retry-after] header
    is present and [parseInt] reads no integer from it, the delay handed
    to [setTimeout] is [NaN], not 60000 milliseconds: the default of 60
    covers only the absent or empty header. *)
Theorem retry_wait_unparsable c meth path params team init r net s :
  prepare c meth path params team = Some init ->
  status r = 429 ->
  headers_get r "retry-after" = Some s ->
  s <> "" ->
  parseInt s = NaN ->
  hd_error (timeouts (snd (request c meth path params team (Responds r :: net))))
  = Some NaN
  /\ Some NaN <> Some (Int 60000).
Proof.
  intros Hp Hs Hh Hne Hn. split; [|discriminate].
  rewrite request_eq, Hp, Hs. cbn [Z.eqb Pos.eqb snd].
  unfold retry_events, retryAfter. rewrite Hh.
  destruct s as [|a s]; [contradiction|].
  cbn [or_default]. rewrite Hn. reflexivity.
Qed.

(** C2, at a 429 response that carries its [retry-after] as an HTTP
    date. *)
Lemma retry_wait_unparsable_witness :
  let c := new_client "test-token" (Some "test-team") in
  let r := mkResponse 429
             (fun h => if String.eqb h "retry-after"
                       then Some "Wed, 21 Oct 2015 07:28:00 GMT" else None)
             None None in
  hd_error (timeouts (snd (request c "get" "/teams" (PObject []) None [Responds r])))
  = Some NaN
  /\ Some NaN <> Some (Int 60000).
Proof.
  intros c r.
  apply (retry_wait_unparsable c "get" "/teams" (PObject []) None
           (mkInit "https://api.esa.io/v1/teams" "get" (default_headers c) None)
           r [] "Wed, 21 Oct 2015 07:28:00 GMT");
    [reflexivity | reflexivity | reflexivity | discriminate | reflexivity].
Defined.

(** C3, as the specification words it, fails when the body of an error
    response is not JSON and its text is empty: the code reports the
    fallback message, the specification the empty text. *)
Lemma error_body_empty_text_counterexample :
  let c := new_client "test-token" (Some "test-team") in
  let r := mkResponse 500 (fun _ => None) None (Some "") in
  fst (getPost c 999 None None [Responds r])
  = Rejected (EsaApiError 500 (VObj [("message", VStr fallback_message)]))
  /\ spec_error_data r = VObj [("message", VStr "")]
  /\ fst (getPost c 999 None None [Responds r])
     <> Rejected (EsaApiError 500 (spec_error_data r)).
Proof.
  cbv zeta. split; [reflexivity | split; [reflexivity | discriminate]].
Qed.

(** C3, amended.  A response that is neither 2xx nor 429 rejects the
    call with an [EsaApiError] of its status whose data is the decoded
    body, else the text under [message] when the text can be read and is
    not empty, else the fallback message.  A 404 response with the body
    [{error: not_found, message: Post not found}] rejects [getPost(999)]
    with status 404 and that object. *)
Theorem error_response_rejects c meth path params team init limited r rest :
  prepare c meth path params team = Some init ->
  Forall (fun r => status r = 429) limited ->
  status r <> 429 ->
  ok r = false ->
  fst (request c meth path params team (map Responds limited ++ Responds r :: rest))
  = Rejected (EsaApiError (status r)
      match json r with
      | Some data => data
      | None =>
          match text r with
          | Some (String a t) => VObj [("message", VStr (String a t))]
          | _ => VObj [("message", VStr fallback_message)]
          end
      end)
  /\ (forall c' body,
        body = VObj [("error", VStr "not_found"); ("message", VStr "Post not found")] ->
        fst (getPost c' 999 None None
               [Responds (mkResponse 404 (fun _ => None) (Some body) None)])
        = Rejected (EsaApiError 404 body)).
Proof.
  intros Hp Hl Hs Hok. split.
  - rewrite (request_retry_prefix _ _ _ _ _ _ _ _ Hp Hl). cbn [fst].
    rewrite request_eq, Hp. apply Z.eqb_neq in Hs. rewrite Hs, Hok. cbn [negb fst].
    unfold read_error_data. destruct (json r); [reflexivity|].
    destruct (text r) as [[|a t]|]; reflexivity.
  - intros c' body ->. unfold getPost, get. rewrite request_eq.
    destruct (prepare c' _ _ _ _) eqn:E; [reflexivity|].
    unfold prepare in E. cbn in E. discriminate.
Qed.

Lemma error_response_rejects_witness :
  let c := new_client "test-token" (Some "test-team") in
  let r := mkResponse 503 (fun _ => None) None (Some "Service Unavailable") in
  fst (request c "get" "/teams" (PObject []) None [Responds r])
  = Rejected (EsaApiError 503 (VObj [("message", VStr "Service Unavailable")])).
Proof.
  intros c r.
  exact (proj1 (error_response_rejects c "get" "/teams" (PObject []) None
           (mkInit "https://api.esa.io/v1/teams" "get" (default_headers c) None)
           [] r [] eq_refl (Forall_nil _) ltac:(discriminate) eq_refl)).
Defined.

(** C4, as the specification words it, fails on a parameter whose value
    is [null]: it is not [undefined], so the loop calls [toString] on
    it, which throws; no URL is built and nothing is sent. *)
Lemma get_query_null_counterexample :
  let c := new_client "test-token" (Some "test-team") in
  let props := [("q", VStr "wip:true"); ("page", VNull)] in
  prepare c "get" "/teams/:team_name/posts" (PObject props) None = None
  /\ (forall net,
        getPosts c (Some props) None net = (Rejected TypeError, [])).
Proof.
  cbv zeta. split; [reflexivity|]. intros net.
  unfold getPosts, get. rewrite request_eq. reflexivity.
Qed.

(** C4, amended.  For a GET call with a non-empty parameter object none
    of whose values is [null], the URL is the base URL and the path
    followed by [?] and a query string that holds exactly the entries
    whose value is not [undefined], in order, each value coerced to a
    string: reading the query string back gives those entries.  No body
    is sent. *)
Theorem get_query_string c meth path props team :
  toLowerCase meth = "get" ->
  props <> [] ->
  (forall k, ~ In (k, VNull) props) ->
  exists init query,
    prepare c meth path (PObject props) team = Some init
    /\ url init = (baseUrl ++ processedPath c path team) ++ "?" ++ query
    /\ query = Url.serialize (coerced props)
    /\ Url.parse query = coerced props
    /\ init_body init = None
    /\ (forall net,
          hd_error (exchanges (snd (request c meth path (PObject props) team net)))
          = Some init).
Proof.
  intros Hm Hne Hnn.
  assert (Hp : prepare c meth path (PObject props) team
               = Some (mkInit ((baseUrl ++ processedPath c path team) ++ "?"
                                 ++ Url.serialize (coerced props))
                         meth (default_headers c) None)).
  { unfold prepare. rewrite Hm. destruct props as [|p props]; [contradiction|].
    cbn [String.eqb Ascii.eqb Bool.eqb andb keys_length own_props List.length Nat.ltb Nat.leb].
    rewrite append_params_spec, (no_null_existsb _ Hnn). reflexivity. }
  eexists. eexists. split; [exact Hp|].
  cbn [url init_body]. repeat split.
  - apply parse_serialize.
  - intros net. now apply request_first_exchange.
Qed.

Lemma get_query_string_witness :
  let c := new_client "test-token" (Some "test-team") in
  let props := [("q", VStr "a b&c"); ("sort", VUndefined); ("page", VNum 2);
                ("wip", VBool false)] in
  exists init query,
    prepare c "GET" "/teams/:team_name/posts" (PObject props) None = Some init
    /\ url init = (baseUrl ++ processedPath c "/teams/:team_name/posts" None)
                    ++ "?" ++ query
    /\ query = Url.serialize (coerced props)
    /\ Url.parse query = coerced props
    /\ init_body init = None
    /\ (forall net,
          hd_error (exchanges (snd (request c "GET" "/teams/:team_name/posts"
                                      (PObject props) None net)))
          = Some init).
Proof.
  intros c props.
  apply (get_query_string c "GET" "/teams/:team_name/posts" props None).
  - reflexivity.
  - discriminate.
  - intros k [H|[H|[H|[H|[]]]]]; discriminate H.
Defined.

(** The query string of that call, written out. *)
Example get_query_string_text :
  Url.serialize
    (coerced [("q", VStr "a b&c"); ("sort", VUndefined); ("page", VNum 2);
              ("wip", VBool false)])
  = "q=a+b%26c&page=2&wip=false".
Proof. reflexivity. Qed.

(** C5.  For a call whose verb is not GET and whose payload is a plain
    object, the body is the [JSON.stringify] text of the object when it
    has a property and there is no body when it has none; [createPost]
    and [updatePost] send their parameters under the key [post], with
    the keys in their order. *)
Theorem non_get_body_is_json c meth path props team :
  toLowerCase meth <> "get" ->
  exists init,
    prepare c meth path (PObject props) team = Some init
    /\ (props = [] -> init_body init = None)
    /\ (props <> [] ->
        exists s, stringify (VObj props) = Some s
                  /\ init_body init = Some (BodyText s))
    /\ (forall net,
          hd_error (exchanges (snd (request c meth path (PObject props) team net)))
          = Some init)
    /\ (forall params net,
          exists sent s,
            hd_error (exchanges (snd (createPost c params team net))) = Some sent
            /\ stringify (VObj [("post", VObj params)]) = Some s
            /\ init_body sent = Some (BodyText s))
    /\ (forall n params net,
          exists sent s,
            hd_error (exchanges (snd (updatePost c n params team net))) = Some sent
            /\ stringify (VObj [("post", VObj params)]) = Some s
            /\ init_body sent = Some (BodyText s))
    /\ stringify (VObj [("post", VObj [("name", VStr "hi"); ("wip", VBool false);
                                        ("tags", VArr [VStr "a"; VStr "b"])])])
       = Some ("{" ++ quoted "post" ++ ":{" ++ quoted "name" ++ ":" ++ quoted "hi"
               ++ "," ++ quoted "wip" ++ ":false," ++ quoted "tags" ++ ":["
               ++ quoted "a" ++ "," ++ quoted "b" ++ "]}}").
Proof.
  intros Hm. apply String.eqb_neq in Hm.
  assert (Hp : prepare c meth path (PObject props) team
               = Some (mkInit (baseUrl ++ processedPath c path team) meth
                         (default_headers c)
                         match props with
                         | [] => None
                         | _ => option_map BodyText (stringify (VObj props))
                         end)).
  { unfold prepare. rewrite Hm. cbn [andb]. destruct props; reflexivity. }
  eexists. split; [exact Hp|]. cbn [init_body].
  split; [|split; [|split; [|split; [|split]]]].
  - intros ->. reflexivity.
  - intros Hne. destruct props as [|p props]; [contradiction|].
    cbn [stringify option_map]. eexists. split; reflexivity.
  - intros net. now apply request_first_exchange.
  - intros params net. eexists. eexists. split; [|split].
    + unfold createPost, post. apply request_first_exchange.
      unfold prepare. reflexivity.
    + reflexivity.
    + reflexivity.
  - intros n params net. eexists. eexists. split; [|split].
    + unfold updatePost, patch. apply request_first_exchange.
      unfold prepare. reflexivity.
    + reflexivity.
    + reflexivity.
  - reflexivity.
Qed.

Lemma non_get_body_is_json_witness :
  let c := new_client "test-token" (Some "test-team") in
  exists init,
    prepare c "post" "/teams/:team_name/posts/1/comments"
      (PObject [("comment", VObj [("body_md", VStr "LGTM")])]) None = Some init
    /\ init_body init
       = Some (BodyText ("{" ++ quoted "comment" ++ ":{" ++ quoted "body_md" ++ ":"
                         ++ quoted "LGTM" ++ "}}")).
Proof.
  intros c.
  destruct (non_get_body_is_json c "post" "/teams/:team_name/posts/1/comments"
              [("comment", VObj [("body_md", VStr "LGTM")])] None)
    as [init [Hp [_ [Hb _]]]]; [discriminate|].
  exists init. split; [exact Hp|].
  destruct (Hb ltac:(discriminate)) as [s [Hs ->]].
  injection Hs as <-. reflexivity.
Defined.

(** C6, as the specification words it, fails in two places.  An override
    that is the empty string is provided and yet the session default is
    used; and an override that holds [$&] is not put in the place of the
    placeholder as it is, since [String.prototype.replace] expands it. *)
Lemma team_override_counterexample :
  let c := new_client "test-token" (Some "acme") in
  (processedPath c "/teams/:team_name" (Some "") = "/teams/acme"
   /\ spec_processedPath c "/teams/:team_name" (Some "") = "/teams/")
  /\ (processedPath c "/teams/:team_name" (Some "a$&b") = "/teams/a:team_nameb"
      /\ spec_processedPath c "/teams/:team_name" (Some "a$&b") = "/teams/a$&b").
Proof.
  cbv zeta. repeat split.
Qed.

(** C6, amended.  The effective team is the override when it is a
    non-empty string, else the session default.  When the effective team
    is a non-empty string without [$], the first occurrence of the
    placeholder in the path is replaced by it; when neither the override
    nor the session default is a non-empty string, the path is left as
    it is.  [getTeam] with the override [acme] is sent to [/teams/acme]
    whatever the session default is. *)
Theorem team_resolution c path team :
  (truthy team = true -> effective_team c team = team)
  /\ (truthy team = false -> effective_team c team = teamName c)
  /\ (truthy team = false -> truthy (teamName c) = false ->
      processedPath c path team = path)
  /\ (forall t before after,
        effective_team c team = Some t -> t <> "" -> has_char "$" t = false ->
        find_sub ":team_name" path = Some (before, after) ->
        path = before ++ ":team_name" ++ after
        /\ processedPath c path team = before ++ t ++ after)
  /\ (forall net,
        hd_error (exchanges (snd (getTeam c (Some "acme") net)))
        = Some (mkInit "https://api.esa.io/v1/teams/acme" "get"
                  (default_headers c) None)).
Proof.
  split; [|split; [|split; [|split]]].
  - unfold effective_team, or_else. now intros ->.
  - unfold effective_team, or_else. now intros ->.
  - unfold processedPath, effective_team, or_else. intros -> Hd.
    destruct (teamName c) as [[|a t]|]; [reflexivity|discriminate|reflexivity].
  - intros t before after He Hne Hd Hf. split; [now apply find_sub_sound|].
    unfold processedPath. rewrite He. destruct t as [|a t]; [contradiction|].
    now apply replace_plain.
  - intros net. unfold getTeam, get. now apply request_first_exchange.
Qed.

Lemma team_resolution_witness :
  let c := new_client "test-token" (Some "test-team") in
  effective_team c (Some "acme") = Some "acme"
  /\ effective_team c None = Some "test-team"
  /\ processedPath (new_client "test-token" None) "/teams/:team_name/stats" None
     = "/teams/:team_name/stats"
  /\ processedPath c "/teams/:team_name/stats" None = "/teams/test-team/stats".
Proof.
  intros c.
  destruct (team_resolution c "/teams/:team_name/stats" (Some "acme")) as [H1 _].
  destruct (team_resolution c "/teams/:team_name/stats" None) as [_ [H2 [_ [H4 _]]]].
  destruct (team_resolution (new_client "test-token" None) "/teams/:team_name/stats"
              None) as [_ [_ [H3 _]]].
  split; [exact (H1 eq_refl)|]. split; [exact (H2 eq_refl)|].
  split; [exact (H3 eq_refl eq_refl)|].
  exact (proj2 (H4 "test-team" "/teams/" "/stats" (H2 eq_refl)
                  ltac:(discriminate) eq_refl eq_refl)).
Defined.

(** With a team that resolves, [createEmoji] returns the promise of a
    request that sends the form. *)
Lemma createEmoji_with_team c params team net :
  truthy (or_else team (teamName c)) = true ->
  exists settled sent,
    createEmoji c params team net = Returned settled
    /\ hd_error (exchanges (snd settled)) = Some sent
    /\ init_body sent = Some (BodyForm (emoji_form params))
    /\ headers sent = [("Authorization", "Bearer " ++ token c)].
Proof.
  intros Ht. unfold createEmoji. rewrite Ht. cbn [negb].
  eexists. eexists. split; [reflexivity|]. split.
  - apply request_first_exchange. unfold prepare. reflexivity.
  - split; reflexivity.
Qed.

(** C7.  [createEmoji] called without a team on a client that has no
    session default throws before it returns, and no exchange takes
    place. *)
Theorem createEmoji_requires_team c params team net :
  team = None ->
  teamName c = None ->
  createEmoji c params team net = Threw "Team name is required for creating emoji"
  /\ exchanges_of_call (createEmoji c params team net) = [].
Proof.
  intros -> Hd. unfold createEmoji, or_else. rewrite Hd. split; reflexivity.
Qed.

Lemma createEmoji_requires_team_witness :
  let c := new_client "test-token" None in
  let params := mkEmoji "party" None (Some (FFile "party.png" "PNG")) in
  createEmoji c params None [] = Threw "Team name is required for creating emoji"
  /\ exchanges_of_call (createEmoji c params None []) = [].
Proof.
  intros c params.
  exact (createEmoji_requires_team c params None [] eq_refl eq_refl).
Defined.

(** C8.  A call whose answer is a 204 response resolves with [null] and
    never calls [response.json()], whatever number of 429 responses came
    before. *)
Theorem no_content_skips_decode c meth path params team init limited r rest :
  prepare c meth path params team = Some init ->
  Forall (fun r => status r = 429) limited ->
  status r = 204 ->
  let run :=
    request c meth path params team (map Responds limited ++ Responds r :: rest) in
  fst run = Resolved VNull /\ decodes (snd run) = 0%nat.
Proof.
  intros Hp Hl Hs run. subst run.
  rewrite (request_retry_prefix _ _ _ _ _ _ _ _ Hp Hl). cbn [fst snd].
  rewrite decodes_app, decodes_retries, request_eq, Hp.
  unfold ok, read_data. rewrite Hs. split; reflexivity.
Qed.

Lemma no_content_skips_decode_witness :
  let c := new_client "test-token" (Some "test-team") in
  let r := mkResponse 204 (fun _ => None) None None in
  let run := request c "delete" "/teams/:team_name/posts/7" (PObject []) None
               [Responds r] in
  fst run = Resolved VNull /\ decodes (snd run) = 0%nat.
Proof.
  intros c r.
  exact (no_content_skips_decode c "delete" "/teams/:team_name/posts/7" (PObject [])
           None
           (mkInit "https://api.esa.io/v1/teams/test-team/posts/7" "delete"
              (default_headers c) None)
           [] r [] eq_refl (Forall_nil _) eq_refl).
Defined.

(** C9.  A call whose answer is a 2xx response other than 204 decodes
    the body once and resolves with it, and resolves with the empty
    object when the decoding fails. *)
Theorem success_decodes_or_empty c meth path params team init limited r rest :
  prepare c meth path params team = Some init ->
  Forall (fun r => status r = 429) limited ->
  ok r = true ->
  status r <> 204 ->
  let run :=
    request c meth path params team (map Responds limited ++ Responds r :: rest) in
  fst run = Resolved match json r with Some data => data | None => VObj [] end
  /\ decodes (snd run) = 1%nat.
Proof.
  intros Hp Hl Hok Hs run. subst run.
  rewrite (request_retry_prefix _ _ _ _ _ _ _ _ Hp Hl). cbn [fst snd].
  rewrite decodes_app, decodes_retries, request_eq, Hp.
  rewrite (ok_not_429 r Hok), Hok. cbn [negb].
  unfold read_data. apply Z.eqb_neq in Hs. rewrite Hs.
  destruct (json r); split; reflexivity.
Qed.

Lemma success_decodes_or_empty_witness :
  let c := new_client "test-token" (Some "test-team") in
  let r := mkResponse 200 (fun _ => None) None (Some "<html>") in
  let run := request c "get" "/teams" (PObject []) None [Responds r] in
  fst run = Resolved (VObj []) /\ decodes (snd run) = 1%nat.
Proof.
  intros c r.
  exact (success_decodes_or_empty c "get" "/teams" (PObject []) None
           (mkInit "https://api.esa.io/v1/teams" "get" (default_headers c) None)
           [] r [] eq_refl (Forall_nil _) eq_refl ltac:(discriminate)).
Defined.

(** C10.  In the GET branch the entries appended to the query are those
    whose value is not [undefined], each with the result of its
    [toString()] call; [false], [0] and the empty string are kept.  A
    [null] value is kept too, its [toString()] call throws, and the call
    rejects with a TypeError before any exchange. *)
Theorem get_keeps_all_but_undefined c meth path props team :
  toLowerCase meth = "get" ->
  (forall entries,
      append_params props [] = Some entries ->
      forall k s,
        In (k, s) entries <->
        exists v, In (k, v) props /\ v <> VUndefined /\ toString v = Some s)
  /\ (append_params props [] = None <-> exists k, In (k, VNull) props)
  /\ ((exists k, In (k, VNull) props) ->
      forall net,
        request c meth path (PObject props) team net = (Rejected TypeError, []))
  /\ append_params
       [("a", VBool false); ("b", VNum 0); ("c", VStr ""); ("d", VUndefined)] []
     = Some [("a", "false"); ("b", "0"); ("c", "")].
Proof.
  intros Hm.
  assert (Hnull : append_params props [] = None <-> exists k, In (k, VNull) props).
  { rewrite append_params_spec. split.
    - destruct (existsb _ props) eqn:E; [|discriminate]. intros _.
      apply existsb_exists in E. destruct E as [[k v] [Hin Hn]].
      exists k. now destruct v.
    - intros [k Hin]. now rewrite (null_existsb _ _ Hin). }
  split; [|split; [exact Hnull|split]].
  - intros entries He k s. rewrite append_params_spec in He.
    destruct (existsb _ props) eqn:E; [discriminate|].
    injection He as <-. cbn [app]. rewrite in_coerced.
    split; intros [v [Hin [Hu Hs]]]; exists v; repeat split; trivial.
    + destruct v; try (now rewrite <- Hs); try contradiction.
      exfalso. assert (Hx : existsb (fun kv => is_null (snd kv)) props = true)
        by now apply (null_existsb _ k).
      congruence.
    + destruct v; try discriminate Hs; try contradiction;
        now injection Hs.
  - intros Hex net. apply Hnull in Hex.
    rewrite request_eq. unfold prepare. rewrite Hm.
    destruct props as [|p props]; [discriminate Hex|].
    cbn [String.eqb Ascii.eqb Bool.eqb andb keys_length own_props List.length
         Nat.ltb Nat.leb].
    now rewrite Hex.
  - reflexivity.
Qed.

Lemma get_keeps_all_but_undefined_witness :
  let c := new_client "test-token" (Some "test-team") in
  let r := mkResponse 200 (fun _ => None) (Some (VObj [])) None in
  request c "get" "/teams/:team_name/posts" (PObject [("page", VNull)]) None
    [Responds r]
  = (Rejected TypeError, []).
Proof.
  intros c r.
  destruct (get_keeps_all_but_undefined c "get" "/teams/:team_name/posts"
              [("page", VNull)] None eq_refl) as [_ [_ [H _]]].
  apply H. exists "page". now left.
Defined.

(** *** Further properties of the request core *)

(** X1.  The wait after a 429 response whose [retry-after] header is
    absent or empty is 60 seconds. *)
Theorem retry_wait_absent c meth path params team init r net :
  prepare c meth path params team = Some init ->
  status r = 429 ->
  headers_get r "retry-after" = None \/ headers_get r "retry-after" = Some "" ->
  hd_error (timeouts (snd (request c meth path params team (Responds r :: net))))
  = Some (Int 60000).
Proof.
  intros Hp Hs Hh. rewrite request_eq, Hp, Hs. cbn [Z.eqb Pos.eqb snd].
  unfold retry_events, retryAfter. destruct Hh as [-> | ->]; reflexivity.
Qed.

Lemma retry_wait_absent_witness :
  let c := new_client "test-token" (Some "test-team") in
  let r := mkResponse 429 (fun _ => None) None None in
  hd_error (timeouts (snd (request c "get" "/teams" (PObject []) None [Responds r])))
  = Some (Int 60000).
Proof.
  intros c r.
  exact (retry_wait_absent c "get" "/teams" (PObject []) None
           (mkInit "https://api.esa.io/v1/teams" "get" (default_headers c) None)
           r [] eq_refl eq_refl (or_introl eq_refl)).
Defined.

(** Every exchange of a call carries the arguments [prepare] built. *)
Lemma exchanges_prepared c meth path params team net init :
  In init (exchanges (snd (request c meth path params team net))) ->
  prepare c meth path params team = Some init.
Proof.
  revert init. induction net as [|[r|reason] net IH]; intros init;
    rewrite request_eq; destruct (prepare c meth path params team) as [i|] eqn:Hp;
    cbn [snd exchanges In]; try tauto; try (now intros [->|[]]).
  destruct (status r =? 429).
  - cbn [snd]. rewrite exchanges_app. cbn [retry_events exchanges app In].
    intros [->|H]; [reflexivity|]. now apply IH.
  - destruct (negb (ok r)); cbn [snd exchanges In].
    + destruct (read_error_data_events r) as [-> _]. now intros [->|[]].
    + destruct (read_data_events r) as [-> _]. now intros [->|[]].
Qed.

(** X2.  The bearer token is attached to every exchange, retries
    included. *)
Theorem every_exchange_authorized c meth path params team net init :
  In init (exchanges (snd (request c meth path params team net))) ->
  In ("Authorization", "Bearer " ++ token c) (headers init).
Proof.
  intros H. apply exchanges_prepared in H. unfold prepare in H.
  destruct (_ && _)%bool.
  - destruct (append_params _ _); [|discriminate]. injection H as <-. now left.
  - destruct params as [props|fd].
    + destruct (Nat.ltb _ _); injection H as <-; now left.
    + injection H as <-. now left.
Qed.

Lemma every_exchange_authorized_witness :
  let c := new_client "test-token" (Some "test-team") in
  let init := mkInit "https://api.esa.io/v1/teams/test-team" "get"
                (default_headers c) None in
  In ("Authorization", "Bearer test-token") (headers init).
Proof.
  intros c init.
  apply (every_exchange_authorized c "get" "/teams/:team_name" (PObject []) None []
           init).
  now left.
Defined.

(** X3.  A [FormData] payload is sent as the body as it is, whatever
    the verb, and the [Content-Type] header is left out so that the
    transport sets it; the bearer token stays. *)
Theorem form_data_sent_verbatim c meth path fd team net :
  exists init,
    prepare c meth path (PForm fd) team = Some init
    /\ init_body init = Some (BodyForm fd)
    /\ headers init = [("Authorization", "Bearer " ++ token c)]
    /\ hd_error (exchanges (snd (request c meth path (PForm fd) team net)))
       = Some init.
Proof.
  assert (Hp : prepare c meth path (PForm fd) team
               = Some (mkInit (baseUrl ++ processedPath c path team) meth
                         [("Authorization", "Bearer " ++ token c)]
                         (Some (BodyForm fd)))).
  { unfold prepare. cbn [keys_length own_props List.length Nat.ltb Nat.leb].
    rewrite andb_false_r. reflexivity. }
  eexists. split; [exact Hp|]. repeat split.
  now apply request_first_exchange.
Qed.

(** X4.  A failure of the transport rejects the call with that failure,
    not with an [EsaApiError], and is not retried. *)
Theorem transport_failure_propagates c meth path params team init limited reason rest :
  prepare c meth path params team = Some init ->
  Forall (fun r => status r = 429) limited ->
  let run :=
    request c meth path params team (map Responds limited ++ Fails reason :: rest) in
  fst run = Rejected (FetchFailure reason)
  /\ exchanges (snd run) = repeat init (S (List.length limited)).
Proof.
  intros Hp Hl run. subst run.
  rewrite (request_retry_prefix _ _ _ _ _ _ _ _ Hp Hl). cbn [fst snd].
  rewrite exchanges_app, exchanges_retries, request_eq, Hp. cbn [fst snd exchanges].
  split; [reflexivity|].
  change (S (List.length limited)) with (1 + List.length limited)%nat.
  rewrite Nat.add_comm, repeat_app. reflexivity.
Qed.

Lemma transport_failure_propagates_witness :
  let c := new_client "test-token" (Some "test-team") in
  let run := request c "get" "/teams" (PObject []) None
               [Fails "ECONNREFUSED"; Fails "ECONNREFUSED"] in
  fst run = Rejected (FetchFailure "ECONNREFUSED")
  /\ exchanges (snd run)
     = [mkInit "https://api.esa.io/v1/teams" "get" (default_headers c) None].
Proof.
  intros c.
  exact (transport_failure_propagates c "get" "/teams" (PObject []) None
           (mkInit "https://api.esa.io/v1/teams" "get" (default_headers c) None)
           [] "ECONNREFUSED" [Fails "ECONNREFUSED"] eq_refl (Forall_nil _)).
Defined.

(** X5.  The number of retries has no bound: as long as the answers are 429
    responses the call stays unsettled, with one exchange per answer and
    one more under way. *)
Theorem retries_unbounded c meth path params team init limited :
  prepare c meth path params team = Some init ->
  Forall (fun r => status r = 429) limited ->
  let run := request c meth path params team (map Responds limited) in
  fst run = Pending
  /\ exchanges (snd run) = repeat init (S (List.length limited))
  /\ List.length (timeouts (snd run)) = List.length limited.
Proof.
  intros Hp Hl run. subst run.
  rewrite <- (app_nil_r (map Responds limited)).
  rewrite (request_retry_prefix _ _ _ _ _ _ _ _ Hp Hl). cbn [fst snd].
  rewrite exchanges_app, timeouts_app, exchanges_retries, timeouts_retries.
  rewrite request_eq, Hp. cbn [fst snd exchanges timeouts].
  rewrite app_nil_r, length_map. repeat split.
  change (S (List.length limited)) with (1 + List.length limited)%nat.
  rewrite Nat.add_comm, repeat_app. reflexivity.
Qed.

Lemma retries_unbounded_witness :
  let c := new_client "test-token" (Some "test-team") in
  let r := mkResponse 429 (fun _ => None) None None in
  let init := mkInit "https://api.esa.io/v1/teams" "get" (default_headers c) None in
  let run := request c "get" "/teams" (PObject []) None
               [Responds r; Responds r; Responds r] in
  fst run = Pending
  /\ exchanges (snd run) = [init; init; init; init]
  /\ List.length (timeouts (snd run)) = 3%nat.
Proof.
  intros c r init.
  exact (retries_unbounded c "get" "/teams" (PObject []) None init [r; r; r] eq_refl
           (Forall_cons r eq_refl
              (Forall_cons r eq_refl (Forall_cons r eq_refl (Forall_nil _))))).
Defined.

(** *** Reading a number back *)










(** X8.  A call stays unsettled exactly when its request could be built
    and every answer of the transport was a 429 response. *)
Theorem pending_iff_all_rate_limited c meth path params team net :
  fst (request c meth path params team net) = Pending
  <-> (prepare c meth path params team <> None
       /\ forallb rate_limited net = true).
Proof.
  induction net as [|[r|reason] net IH]; rewrite request_eq;
    destruct (prepare c meth path params team) as [init|] eqn:Hp;
    cbn [fst forallb rate_limited andb];
    try (split; [discriminate | intros [H _]; now contradiction H]);
    try (split; [intros _; split; [discriminate | reflexivity] | reflexivity]).
  - destruct (status r =? 429); cbn [fst andb].
    + rewrite IH. split; intros [H1 H2]; (split; [discriminate | exact H2]).
    + destruct (negb (ok r)); cbn [fst];
        (split; [discriminate | intros [_ H]; discriminate H]).
  - split; [discriminate | intros [_ H]; discriminate H].
Qed.

Lemma pending_iff_all_rate_limited_witness :
  let c := new_client "test-token" (Some "test-team") in
  let r := mkResponse 429 (fun _ => None) None None in
  fst (request c "get" "/teams" (PObject []) None [Responds r; Responds r])
  = Pending.
Proof.
  intros c r.
  apply (pending_iff_all_rate_limited c "get" "/teams" (PObject []) None
           [Responds r; Responds r]).
  split; [discriminate | reflexivity].
Defined.

(** X9.  Whatever the transport answers, a call that could build its
    request issues exactly one exchange more than it waits, never more
    exchanges than the answers it got plus the one under way, and as
    many exchanges as answers at most once it has settled. *)
Theorem one_more_exchange_than_waits c meth path params team init net :
  prepare c meth path params team = Some init ->
  let run := request c meth path params team net in
  List.length (exchanges (snd run)) = S (List.length (timeouts (snd run)))
  /\ (List.length (exchanges (snd run)) <= S (List.length net))%nat
  /\ (fst run <> Pending ->
      (List.length (exchanges (snd run)) <= List.length net)%nat).
Proof.
  intros Hp. cbv zeta. induction net as [|[r|reason] net IH];
    rewrite request_eq, Hp.
  - cbn. repeat split; try lia. intros H. now contradiction H.
  - destruct (status r =? 429); cbn [fst snd].
    + rewrite exchanges_app, timeouts_app. cbn [retry_events exchanges timeouts app].
      cbn [List.length]. destruct IH as [IH1 [IH2 IH3]].
      repeat split; try lia. intros H. specialize (IH3 H). lia.
    + destruct (negb (ok r)); cbn [fst snd exchanges timeouts List.length].
      * destruct (read_error_data_events r) as [-> ->]. cbn. repeat split; lia.
      * destruct (read_data_events r) as [-> ->]. cbn. repeat split; lia.
  - cbn. repeat split; lia.
Qed.

Lemma one_more_exchange_than_waits_witness :
  let c := new_client "test-token" (Some "test-team") in
  let r1 := mkResponse 429 (fun _ => None) None None in
  let r2 := mkResponse 200 (fun _ => None) (Some (VObj [])) None in
  let run := request c "get" "/teams" (PObject []) None
               [Responds r1; Responds r2; Responds r2] in
  List.length (exchanges (snd run)) = S (List.length (timeouts (snd run)))
  /\ (List.length (exchanges (snd run)) <= 4)%nat
  /\ (fst run <> Pending -> (List.length (exchanges (snd run)) <= 3)%nat).
Proof.
  intros c r1 r2.
  exact (one_more_exchange_than_waits c "get" "/teams" (PObject []) None
           (mkInit "https://api.esa.io/v1/teams" "get" (default_headers c) None)
           [Responds r1; Responds r2; Responds r2] eq_refl).
Defined.




(** X11.  A GET call whose parameter object is empty gets no query
    string at all; one whose parameter object has properties that are
    all [undefined] gets a bare [?] after the path.  Neither sends a
    body. *)
Theorem get_query_edge_cases c meth path props team :
  toLowerCase meth = "get" ->
  Forall (fun kv => snd kv = VUndefined) props ->
  exists init,
    prepare c meth path (PObject props) team = Some init
    /\ url init = match props with
                  | [] => baseUrl ++ processedPath c path team
                  | _ => (baseUrl ++ processedPath c path team) ++ "?"
                  end
    /\ init_body init = None.
Proof.
  intros Hm Hu. unfold prepare. rewrite Hm.
  destruct props as [|p props]; [eexists; repeat split|].
  cbn [String.eqb Ascii.eqb Bool.eqb andb keys_length own_props List.length
       Nat.ltb Nat.leb].
  rewrite append_params_spec.
  assert (Hn : existsb (fun kv => is_null (snd kv)) (p :: props) = false
               /\ coerced (p :: props) = []).
  { clear Hm. induction Hu as [|[k v] l Hv _ IH]; [split; reflexivity|].
    cbn [snd] in Hv. subst v. destruct IH as [IH1 IH2].
    split; [exact IH1 | exact IH2]. }
  destruct Hn as [-> ->]. eexists. repeat split.
Qed.

Lemma get_query_edge_cases_witness :
  let c := new_client "test-token" (Some "test-team") in
  exists init,
    prepare c "get" "/teams/:team_name/members"
      (PObject [("page", VUndefined); ("per_page", VUndefined)]) None = Some init
    /\ url init = "https://api.esa.io/v1/teams/test-team/members?"
    /\ init_body init = None.
Proof.
  intros c.
  apply (get_query_edge_cases c "get" "/teams/:team_name/members"
           [("page", VUndefined); ("per_page", VUndefined)] None eq_refl).
  repeat constructor.
Defined.

(** *** JSON bodies *)

Lemma stringify_object (props : list (string * value)) :
  stringify (VObj props) = Some ("{" ++ join "," (members props) ++ "}").
Proof.
  cbn [stringify].
  match goal with
  | |- Some (_ ++ join _ ?l ++ _) = _ => assert (E : l = members props)
  end.
  { induction props as [|[k x] props IH]; [reflexivity|].
    cbn [members]. destruct (stringify x); now rewrite IH. }
  now rewrite E.
Qed.

Lemma stringify_undefined (x : value) : stringify x = None <-> x = VUndefined.
Proof.
  split; [|now intros ->].
  destruct x as [| |[]| | | |]; cbn [stringify]; intros H;
    try discriminate H; reflexivity.
Qed.

Lemma members_defined (props : list (string * value)) :
  members (defined_props props) = members props.
Proof.
  induction props as [|[k x] props IH]; [reflexivity|].
  unfold defined_props in *. cbn [filter snd].
  destruct x; cbn [is_undefined negb members]; rewrite ?IH; reflexivity.
Qed.

(** X12.  In the JSON body of a call whose verb is not GET, a property
    whose value is [undefined] is left out: the body is the text of the
    object without those properties.  An object that has properties,
    all of them [undefined], is still sent, as the text of the empty
    object. *)
Theorem undefined_properties_not_sent c meth path props team :
  toLowerCase meth <> "get" ->
  props <> [] ->
  exists init,
    prepare c meth path (PObject props) team = Some init
    /\ init_body init
       = option_map BodyText (stringify (VObj (defined_props props)))
    /\ (Forall (fun kv => snd kv = VUndefined) props ->
        init_body init = Some (BodyText "{}")).
Proof.
  intros Hm Hne. apply String.eqb_neq in Hm.
  unfold prepare. rewrite Hm. cbn [andb].
  destruct props as [|p props]; [contradiction|].
  cbn [keys_length own_props List.length Nat.ltb Nat.leb].
  eexists. split; [reflexivity|]. cbn [init_body].
  rewrite !stringify_object, members_defined. split; [reflexivity|].
  intros Hu. assert (Hm' : members (p :: props) = []).
  { clear Hne. induction Hu as [|[k v] l Hv _ IH]; [reflexivity|].
    cbn [snd] in Hv. subst v. exact IH. }
  now rewrite Hm'.
Qed.

Lemma undefined_properties_not_sent_witness :
  let c := new_client "test-token" (Some "test-team") in
  exists init,
    prepare c "patch" "/teams/:team_name/posts/5"
      (PObject [("post", VObj [("name", VUndefined); ("wip", VBool true)]);
                ("message", VUndefined)]) None = Some init
    /\ init_body init
       = Some (BodyText ("{" ++ quoted "post" ++ ":{" ++ quoted "wip" ++ ":true}}")).
Proof.
  intros c.
  destruct (undefined_properties_not_sent c "patch" "/teams/:team_name/posts/5"
              [("post", VObj [("name", VUndefined); ("wip", VBool true)]);
               ("message", VUndefined)] None)
    as [init [Hp [Hb _]]]; [discriminate | discriminate |].
  exists init. split; [exact Hp|]. rewrite Hb. reflexivity.
Defined.

(** *** Paths *)

Lemma placeholder_first (rest : string) :
  find_sub ":team_name" ("/teams/:team_name" ++ rest) = Some ("/teams/", rest).
Proof. reflexivity. Qed.

Lemma first_url_request c meth path params team init net :
  prepare c meth path params team = Some init ->
  first_url (request c meth path params team net) = Some (url init).
Proof.
  intros Hp. unfold first_url. now rewrite (request_first_exchange _ _ _ _ _ _ net Hp).
Qed.

(** X13.  Every team route starts with [/teams/:team_name]; whatever
    follows, the team is put in the place of that placeholder and the
    rest is sent as it is.  The member name, the invitation code and the
    emoji code that a leaf method splices into the path are not encoded
    and are not touched by the substitution. *)
Theorem team_scoped_path c team t rest :
  effective_team c team = Some t ->
  t <> "" ->
  has_char "$" t = false ->
  processedPath c ("/teams/:team_name" ++ rest) team = "/teams/" ++ t ++ rest
  /\ (forall name net,
        first_url (getMember c name team net)
        = Some (baseUrl ++ "/teams/" ++ t ++ "/members/" ++ name)
        /\ first_url (deleteMember c name team net)
           = Some (baseUrl ++ "/teams/" ++ t ++ "/members/" ++ name)
        /\ first_url (deleteInvitation c name team net)
           = Some (baseUrl ++ "/teams/" ++ t ++ "/invitations/" ++ name)
        /\ first_url (deleteEmoji c name team net)
           = Some (baseUrl ++ "/teams/" ++ t ++ "/emojis/" ++ name)).
Proof.
  intros He Hne Hd.
  assert (Hp : forall rest', processedPath c ("/teams/:team_name" ++ rest') team
                             = "/teams/" ++ t ++ rest').
  { intros rest'. unfold processedPath. rewrite He.
    destruct t as [|a t]; [contradiction|].
    now rewrite (replace_plain _ _ _ _ _ Hd (placeholder_first rest')). }
  split; [apply Hp|]. intros name net.
  unfold getMember, deleteMember, deleteInvitation, deleteEmoji, get, delete.
  cbn [params_or_empty].
  repeat split;
    (erewrite first_url_request by (unfold prepare; reflexivity));
    cbn [url]; f_equal; f_equal.
  - apply (Hp ("/members/" ++ name)).
  - apply (Hp ("/members/" ++ name)).
  - apply (Hp ("/invitations/" ++ name)).
  - apply (Hp ("/emojis/" ++ name)).
Qed.

Lemma team_scoped_path_witness :
  let c := new_client "test-token" (Some "test-team") in
  first_url (getMember c "alice@example.com/../x?y#z" (Some "acme") [])
  = Some "https://api.esa.io/v1/teams/acme/members/alice@example.com/../x?y#z".
Proof.
  intros c.
  destruct (team_scoped_path c (Some "acme") "acme" "" eq_refl
              ltac:(discriminate) eq_refl) as [_ H].
  exact (proj1 (H "alice@example.com/../x?y#z" [])).
Defined.



(** A path without the placeholder is not changed. *)
Lemma path_without_placeholder c path team :
  find_sub ":team_name" path = None -> processedPath c path team = path.
Proof.
  intros Hf. unfold processedPath.
  destruct (effective_team c team) as [[|a t]|]; try reflexivity.
  now apply replace_absent.
Qed.

(** X15.  A path without the placeholder is sent as it is, whatever the
    session team and the override: [getTeams] and
    [getAuthenticatedUser] go to [/teams] and [/user], with a query only
    when their flag is set. *)
Theorem team_free_routes c :
  (forall path team,
      find_sub ":team_name" path = None -> processedPath c path team = path)
  /\ (forall role net,
        first_url (getTeams c role net)
        = Some match role with
               | Some (String a r) =>
                   "https://api.esa.io/v1/teams?role=" ++ Url.encode (String a r)
               | _ => "https://api.esa.io/v1/teams"
               end)
  /\ (forall includeTeams net,
        first_url (getAuthenticatedUser c includeTeams net)
        = Some match includeTeams with
               | Some true => "https://api.esa.io/v1/user?include=teams"
               | _ => "https://api.esa.io/v1/user"
               end).
Proof.
  pose proof (path_without_placeholder c) as Hp.
  split; [exact Hp|]. split.
  - intros role net. unfold getTeams, get. cbn [params_or_empty].
    destruct role as [[|a r]|];
      (erewrite first_url_request
         by (unfold prepare; rewrite (Hp "/teams" None eq_refl); reflexivity));
      reflexivity.
  - intros flag net. unfold getAuthenticatedUser, get. cbn [params_or_empty].
    destruct flag as [[|]|];
      (erewrite first_url_request
         by (unfold prepare; rewrite (Hp "/user" None eq_refl); reflexivity));
      reflexivity.
Qed.

Lemma team_free_routes_witness :
  let c := new_client "test-token" (Some "test-team") in
  processedPath c "/user" (Some "acme") = "/user".
Proof.
  intros c.
  exact (proj1 (team_free_routes c) "/user" (Some "acme") eq_refl).
Defined.

Lemma length_app (a b : string) :
  String.length (a ++ b) = (String.length a + String.length b)%nat.
Proof.
  induction a as [|x a IH]; [reflexivity|]. cbn [append String.length]. now rewrite IH.
Qed.

Lemma encodeURI_length (s : string) :
  (String.length s <= String.length (encodeURI s))%nat
  /\ (forallb uri_kept (list_ascii_of_string s) = false ->
      (String.length s < String.length (encodeURI s))%nat).
Proof.
  induction s as [|a s [IH1 IH2]]; [split; [apply le_n | discriminate]|].
  cbn [encodeURI list_ascii_of_string forallb]. rewrite length_app.
  unfold encodeURI_byte. destruct (uri_kept a); cbn [andb String.length].
  - split; [lia|]. intros H. specialize (IH2 H). lia.
  - split; [lia|]. intros _. lia.
Qed.

Lemma encodeURI_kept (s : string) :
  forallb uri_kept (list_ascii_of_string s) = true -> encodeURI s = s.
Proof.
  induction s as [|a s IH]; [reflexivity|].
  cbn [encodeURI list_ascii_of_string forallb]. intros H.
  apply andb_true_iff in H. destruct H as [Ha Hs].
  unfold encodeURI_byte. rewrite Ha, (IH Hs). reflexivity.
Qed.

(** X16.  [searchPosts] always searches the team [docs], whatever the
    session team is, and takes no override.  The search text goes
    through [encodeURI] and then through the query encoding, so what the
    query holds under [q] is the [encodeURI] text, which is the search
    text itself only when every byte of it is one that [encodeURI]
    keeps. *)
Theorem searchPosts_fixed_team c searchParams net :
  first_url (searchPosts c searchParams net)
  = Some ("https://api.esa.io/v1/teams/docs/posts?q="
          ++ Url.encode (encodeURI searchParams))
  /\ Url.parse ("q=" ++ Url.encode (encodeURI searchParams))
     = [("q", encodeURI searchParams)]
  /\ (encodeURI searchParams = searchParams
      <-> forallb uri_kept (list_ascii_of_string searchParams) = true).
Proof.
  split; [|split].
  - unfold searchPosts, get. cbn [params_or_empty].
    erewrite first_url_request.
    2: { unfold prepare.
         rewrite (path_without_placeholder c "/teams/docs/posts" None eq_refl).
         reflexivity. }
    reflexivity.
  - exact (parse_serialize [("q", encodeURI searchParams)]).
  - split; [|apply encodeURI_kept].
    intros E. destruct (forallb uri_kept (list_ascii_of_string searchParams)) eqn:F;
      [reflexivity|].
    pose proof (proj2 (encodeURI_length searchParams) F) as H.
    rewrite E in H. lia.
Qed.

Lemma searchPosts_fixed_team_witness :
  let c := new_client "test-token" (Some "test-team") in
  first_url (searchPosts c "wip:true tag:a b" [])
  = Some "https://api.esa.io/v1/teams/docs/posts?q=wip%3Atrue%2520tag%3Aa%2520b".
Proof.
  intros c.
  exact (proj1 (searchPosts_fixed_team c "wip:true tag:a b" [])).
Defined.

(** *** Emoji creation *)

(** X17.  When a team resolves, [createEmoji] returns the promise of a
    POST to the emoji route of that team whose body is the form, with
    the bearer token and without a [Content-Type] header. *)
Theorem createEmoji_sends_form c params team t net :
  effective_team c team = Some t ->
  t <> "" ->
  has_char "$" t = false ->
  exists settled init,
    createEmoji c params team net = Returned settled
    /\ hd_error (exchanges (snd settled)) = Some init
    /\ url init = baseUrl ++ "/teams/" ++ t ++ "/emojis"
    /\ method init = "post"
    /\ init_body init = Some (BodyForm (emoji_form params))
    /\ headers init = [("Authorization", "Bearer " ++ token c)].
Proof.
  intros He Hne Hd. unfold createEmoji. fold (effective_team c team). rewrite He.
  destruct t as [|a t]; [contradiction|]. cbn [truthy negb].
  eexists. eexists. split; [reflexivity|]. split.
  - apply request_first_exchange. unfold prepare. reflexivity.
  - cbn [url method init_body headers]. repeat split.
    f_equal. unfold processedPath, effective_team, or_else. cbn [truthy].
    exact (replace_plain _ _ _ _ _ Hd (placeholder_first "/emojis")).
Qed.

Lemma createEmoji_sends_form_witness :
  let c := new_client "test-token" (Some "test-team") in
  let params := mkEmoji "party" (Some "tada") (Some (FFile "party.png" "PNG")) in
  exists settled init,
    createEmoji c params None [] = Returned settled
    /\ hd_error (exchanges (snd settled)) = Some init
    /\ url init = "https://api.esa.io/v1/teams/test-team/emojis"
    /\ method init = "post"
    /\ init_body init
       = Some (BodyForm [("emoji[code]", FText "party");
                         ("emoji[origin_code]", FText "tada");
                         ("emoji[image]", FFile "party.png" "PNG")])
    /\ headers init = [("Authorization", "Bearer test-token")].
Proof.
  intros c params.
  exact (createEmoji_sends_form c params None "test-team" [] eq_refl
           ltac:(discriminate) eq_refl).
Defined.

(** X18.  The form of [createEmoji] starts with the field [emoji[code]];
    it holds [emoji[origin_code]] exactly when the origin code is a
    non-empty string, and [emoji[image]] exactly when the image is a
    file or a non-empty string; each field holds the parameter as it was
    given and no field occurs twice. *)
Theorem emoji_form_fields params :
  hd_error (emoji_form params) = Some ("emoji[code]", FText (code params))
  /\ (In "emoji[origin_code]" (field_names (emoji_form params))
      <-> truthy (origin_code params) = true)
  /\ (forall v, In ("emoji[origin_code]", v) (emoji_form params) ->
                exists s, v = FText s /\ origin_code params = Some s)
  /\ (In "emoji[image]" (field_names (emoji_form params))
      <-> exists img, image params = Some img /\ img <> FText "")
  /\ (forall v, In ("emoji[image]", v) (emoji_form params) ->
                image params = Some v)
  /\ NoDup (field_names (emoji_form params)).
Proof.
  destruct params as [cd oc img]. unfold emoji_form, field_names.
  cbn [code origin_code image].
  split; [reflexivity|].
  destruct oc as [[|a o]|]; destruct img as [[[|b i]|nm ct]|];
    cbn [truthy or_default app map fst hd_error In].
  all: split;
    [split; [intros H; intuition (try discriminate)
            | intros H; try discriminate H; intuition auto]|].
  all: split;
    [intros v H; intuition (try discriminate);
     match goal with E : (_, _) = (_, _) |- _ => injection E as <- end;
     eexists; split; reflexivity|].
  all: split;
    [split; [intros H; intuition (try discriminate);
             eexists; (split; [reflexivity | discriminate])
            | intros [x [E Hx]]; try discriminate E;
              try (injection E as <-; now contradiction Hx); intuition auto]|].
  all: split;
    [intros v H; intuition (try discriminate);
     match goal with E : (_, _) = (_, _) |- _ => injection E as <- end;
     reflexivity|].
  all: repeat constructor; cbn [In]; intuition discriminate.
Qed.

Lemma emoji_form_fields_witness :
  field_names (emoji_form (mkEmoji "party" (Some "") (Some (FText "data:image/png"))))
  = ["emoji[code]"; "emoji[image]"]
  /\ (In "emoji[origin_code]"
        (field_names
           (emoji_form (mkEmoji "party" (Some "") (Some (FText "data:image/png")))))
      <-> truthy (Some "") = true).
Proof.
  split; [reflexivity|].
  exact (proj1 (proj2 (emoji_form_fields
                         (mkEmoji "party" (Some "") (Some (FText "data:image/png")))))).
Defined.

(** *** Wrapped and bare bodies *)

(** X19.  The methods that wrap their parameters under a key send a body
    even when the parameters are empty: the text of the parameters
    inside the wrapper object.  The methods that pass their parameters
    as they are send no body when these are missing or empty. *)
Theorem wrapped_bodies_always_sent c n params team net :
  exists s,
    stringify (VObj params) = Some s
    /\ (forall run key,
          In (run, key)
             [(createPost c params team net, "post");
              (updatePost c n params team net, "post");
              (createComment c n params team net, "comment");
              (updateComment c n params team net, "comment");
              (inviteMembers c params team net, "member")] ->
          exists init,
            hd_error (exchanges (snd run)) = Some init
            /\ init_body init
               = Some (BodyText ("{" ++ (json_quote key ++ ":" ++ s) ++ "}")))
    /\ (forall run,
          In run [starPost c n None team net; starPost c n (Some []) team net;
                  starComment c n None team net; batchMoveCategory c [] team net;
                  watchPost c n team net; regenerateInvitationUrl c team net] ->
          exists init,
            hd_error (exchanges (snd run)) = Some init /\ init_body init = None).
Proof.
  exists ("{" ++ join "," (members params) ++ "}").
  split; [apply stringify_object|]. split.
  - intros run key H. cbn [In] in H.
    repeat (destruct H as [H|H]); try contradiction; injection H as <- <-;
      unfold createPost, updatePost, createComment, updateComment, inviteMembers,
        post, patch; cbn [params_or_empty];
      (eexists; split;
       [apply request_first_exchange; unfold prepare; cbn [toLowerCase];
        reflexivity
       | cbn [init_body option_map]; rewrite stringify_object;
         cbn [members]; rewrite stringify_object; reflexivity]).
  - intros run H. cbn [In] in H.
    repeat (destruct H as [H|H]); try contradiction; subst run;
      unfold starPost, starComment, batchMoveCategory, watchPost,
        regenerateInvitationUrl, post; cbn [params_or_empty];
      (eexists; split;
       [apply request_first_exchange; unfold prepare; reflexivity | reflexivity]).
Qed.

Lemma wrapped_bodies_always_sent_witness :
  let c := new_client "test-token" (Some "test-team") in
  exists init,
    hd_error (exchanges (snd (createComment c 7 [] None []))) = Some init
    /\ init_body init = Some (BodyText ("{" ++ quoted "comment" ++ ":{}}")).
Proof.
  intros c.
  destruct (wrapped_bodies_always_sent c 7 [] None []) as [s [Hs [H _]]].
  injection Hs as <-.
  exact (H (createComment c 7 [] None []) "comment"
           (or_intror (or_intror (or_introl eq_refl)))).
Defined.

(** *** Numbers in the query *)




